(** * Resume shortlisting: a shallow embedding of the matching pipeline

    The development follows the three Python modules of the repository:
    [resume_parser] (text and contact extraction), [job_parser] (job
    description extraction) and [main] (whole-document matching, client
    extraction and skill filtering), together with the two button handlers
    of [app] that guard the batch operations.

    Conventions.
    - A Python [str] is a [string]: one [ascii] per code point, so the texts
      covered are those whose code points are below 256.
    - Similarity scores (numpy floats in the source) are rationals [Q]; the
      comparisons and the mean are the exact ones.
    - Everything outside the repository (the file system, pdfplumber,
      python-docx, spaCy, the sentence-embedding model, cosine similarity) is
      a field of the record [World]; every theorem quantifies over it.
    - Python exceptions are values of [exn]; a function that may raise
      returns a [result]. *)

From Stdlib Require Import Ascii String List Bool Arith Lia QArith Sorted Permutation.
From stdpp Require Import base option list gmap strings sets.

Close Scope Q_scope.
#[local] Open Scope string_scope.
#[local] Open Scope list_scope.
#[local] Open Scope nat_scope.

(** ** Characters and the [str] methods the code uses *)

Module Py.

Definition code (x : ascii) : nat := nat_of_ascii x.

Definition between (lo hi n : nat) : bool := (lo <=? n) && (n <=? hi).

(** [str.isspace] on one character, which is also what [\s], [str.strip] and
    [str.split] use. *)
Definition isspace (x : ascii) : bool :=
  let n := code x in
  between 9 13 n || between 28 32 n || (n =? 133) || (n =? 160).

(** [\d] *)
Definition isdigit (x : ascii) : bool := between 48 57 (code x).

(** [\w]: alphanumeric or underscore. *)
Definition isword (x : ascii) : bool :=
  let n := code x in
  between 48 57 n || between 65 90 n || (n =? 95) || between 97 122 n
  || (n =? 170) || between 178 179 n || (n =? 181) || between 185 186 n
  || between 188 190 n || between 192 214 n || between 216 246 n
  || between 248 255 n.

(** [str.lower] on one character. *)
Definition lower_char (x : ascii) : ascii :=
  let n := code x in
  if between 65 90 n || (between 192 222 n && negb (n =? 215))
  then ascii_of_nat (n + 32) else x.

(** The upper-case partner of a lower-case letter that has one below 256. *)
Definition upper_char (x : ascii) : ascii :=
  let n := code x in
  if between 97 122 n || (between 224 254 n && negb (n =? 247))
  then ascii_of_nat (n - 32) else x.

Fixpoint lower (s : string) : string :=
  match s with
  | EmptyString => EmptyString
  | String x s' => String (lower_char x) (lower s')
  end.

(** [s.lstrip()], [s.rstrip()] and [s.strip()] *)
Fixpoint lstrip (s : string) : string :=
  match s with
  | EmptyString => EmptyString
  | String x s' => if isspace x then lstrip s' else s
  end.

Fixpoint rstrip (s : string) : string :=
  match s with
  | EmptyString => EmptyString
  | String x s' =>
      match rstrip s' with
      | EmptyString => if isspace x then EmptyString else String x EmptyString
      | t => String x t
      end
  end.

Definition strip (s : string) : string := rstrip (lstrip s).

(** [s.split()]: the maximal runs of non-space characters. *)
Fixpoint split_go (cur : string) (s : string) : list string :=
  match s with
  | EmptyString => match cur with EmptyString => [] | _ => [String.rev cur] end
  | String x s' =>
      if isspace x
      then match cur with
           | EmptyString => split_go EmptyString s'
           | _ => String.rev cur :: split_go EmptyString s'
           end
      else split_go (String x cur) s'
  end.

Definition split (s : string) : list string := split_go EmptyString s.

(** [s.split(sep)] for a one-character separator. *)
Fixpoint split_on_go (sep : ascii) (cur : string) (s : string) : list string :=
  match s with
  | EmptyString => [String.rev cur]
  | String x s' =>
      if Ascii.eqb x sep
      then String.rev cur :: split_on_go sep EmptyString s'
      else split_on_go sep (String x cur) s'
  end.

Definition split_on (sep : ascii) (s : string) : list string :=
  split_on_go sep EmptyString s.

(** [s.replace(a, b)] for one-character [a] and [b]. *)
Fixpoint replace_char (a b : ascii) (s : string) : string :=
  match s with
  | EmptyString => EmptyString
  | String x s' => String (if Ascii.eqb x a then b else x) (replace_char a b s')
  end.

(** [s.startswith(p)], [s.endswith(p)] and [p in s] *)
Definition startswith (p s : string) : bool := String.prefix p s.

Definition endswith (p s : string) : bool :=
  String.prefix (String.rev p) (String.rev s).

Fixpoint contains (p s : string) : bool :=
  String.prefix p s ||
  match s with
  | EmptyString => false
  | String _ s' => contains p s'
  end.

(** [s[:n]] *)
Fixpoint take (n : nat) (s : string) : string :=
  match n, s with
  | S k, String x s' => String x (take k s')
  | _, _ => EmptyString
  end.

(** Truthiness of a [str]. *)
Definition truthy (s : string) : bool :=
  match s with EmptyString => false | _ => true end.

End Py.

(** ** Regular expressions: the fragment of Python's [re] the patterns use

    The matcher is a backtracking one with the priorities of [re]: the left
    alternative first, greedy repetitions longest first, lazy ones shortest
    first.  A bounded repetition [x{m,n}] is written with [rep_range], which
    unfolds it into [m] copies followed by nested greedy options; [x+] is
    [x x*].  Unbounded repetition is only needed over character sets. *)

Module Re.

Inductive cset : Type :=
| CChar (a : ascii)
| CRange (lo hi : ascii)
| CDigit
| CSpace
| CWord
| CUnion (a b : cset)
| CNot (a : cset).

Inductive regex : Type :=
| REps
| RSet (c : cset)
| RSeq (a b : regex)
| RAlt (a b : regex)
| ROpt (a : regex)
| RStar (c : cset)
| RLazyStar (c : cset)
| RGroup (a : regex)
| RBol
| REol.

Record flags : Type := { ignorecase : bool; multiline : bool }.

Definition no_flags : flags := {| ignorecase := false; multiline := false |}.
Definition IGNORECASE : flags := {| ignorecase := true; multiline := false |}.
Definition MULTILINE : flags := {| ignorecase := false; multiline := true |}.

Fixpoint cset_raw (c : cset) (x : ascii) : bool :=
  match c with
  | CChar a => Ascii.eqb x a
  | CRange lo hi => Py.between (Py.code lo) (Py.code hi) (Py.code x)
  | CDigit => Py.isdigit x
  | CSpace => Py.isspace x
  | CWord => Py.isword x
  | CUnion a b => cset_raw a x || cset_raw b x
  | CNot a => negb (cset_raw a x)
  end.

(** Under IGNORECASE a character belongs to a set when one of its case
    variants does. *)
Fixpoint cset_icase (c : cset) (x : ascii) : bool :=
  match c with
  | CUnion a b => cset_icase a x || cset_icase b x
  | CNot a => negb (cset_icase a x)
  | _ => cset_raw c x || cset_raw c (Py.lower_char x) || cset_raw c (Py.upper_char x)
  end.

Definition cset_mem (fl : flags) (c : cset) (x : ascii) : bool :=
  if ignorecase fl then cset_icase c x else cset_raw c x.

(** The state of one match attempt: the character before the current
    position (for [^]), the text still to read, the position, and the text
    captured by group 1 so far. *)
Record mstate : Type := {
  m_prev : option ascii;
  m_rest : string;
  m_pos : nat;
  m_group : option string
}.

Definition advance (x : ascii) (s' : string) (st : mstate) : mstate :=
  {| m_prev := Some x; m_rest := s'; m_pos := S (m_pos st); m_group := m_group st |}.

Definition close_group (st st' : mstate) : mstate :=
  {| m_prev := m_prev st'; m_rest := m_rest st'; m_pos := m_pos st';
     m_group := Some (Py.take (m_pos st' - m_pos st) (m_rest st)) |}.

Definition at_bol (fl : flags) (st : mstate) : bool :=
  match m_prev st with
  | None => true
  | Some x => multiline fl && Ascii.eqb x "010"
  end.

Definition at_eol (fl : flags) (st : mstate) : bool :=
  match m_rest st with
  | EmptyString => true
  | String x EmptyString => Ascii.eqb x "010"
  | String x _ => multiline fl && Ascii.eqb x "010"
  end.

Definition orelse {A} (a b : option A) : option A :=
  match a with Some _ => a | None => b end.

(** Greedy and lazy repetition of a character set, by recursion on the
    text. *)
Fixpoint star_greedy {A} (fl : flags) (c : cset) (s : string) (st : mstate)
    (k : mstate -> option A) : option A :=
  match s with
  | String x s' =>
      if cset_mem fl c x
      then orelse (star_greedy fl c s' (advance x s' st) k) (k st)
      else k st
  | EmptyString => k st
  end.

Fixpoint star_lazy {A} (fl : flags) (c : cset) (s : string) (st : mstate)
    (k : mstate -> option A) : option A :=
  match s with
  | String x s' =>
      if cset_mem fl c x
      then orelse (k st) (star_lazy fl c s' (advance x s' st) k)
      else k st
  | EmptyString => k st
  end.

(** [exec fl r st k] matches [r] at [st] and hands every way of doing so,
    in priority order, to the continuation [k] until one is accepted. *)
Fixpoint exec {A} (fl : flags) (r : regex) (st : mstate)
    (k : mstate -> option A) : option A :=
  match r with
  | REps => k st
  | RSet c =>
      match m_rest st with
      | String x s' => if cset_mem fl c x then k (advance x s' st) else None
      | EmptyString => None
      end
  | RSeq a b => exec fl a st (fun st' => exec fl b st' k)
  | RAlt a b => orelse (exec fl a st k) (exec fl b st k)
  | ROpt a => orelse (exec fl a st k) (k st)
  | RStar c => star_greedy fl c (m_rest st) st k
  | RLazyStar c => star_lazy fl c (m_rest st) st k
  | RGroup a => exec fl a st (fun st' => k (close_group st st'))
  | RBol => if at_bol fl st then k st else None
  | REol => if at_eol fl st then k st else None
  end.

(** A match object: [m.start()], [m.end()], [m.group(0)] and [m.group(1)]
    ([None] when the group took no part in the match). *)
Record rmatch : Type := {
  m_start : nat;
  m_end : nat;
  group0 : string;
  group1 : option string
}.

Definition match_at (fl : flags) (r : regex) (prev : option ascii) (pos : nat)
    (s : string) : option rmatch :=
  match exec fl r {| m_prev := prev; m_rest := s; m_pos := pos; m_group := None |} Some with
  | Some st' =>
      Some {| m_start := pos; m_end := m_pos st';
              group0 := Py.take (m_pos st' - pos) s;
              group1 := m_group st' |}
  | None => None
  end.

(** The scan of [finditer]: try every position from left to right; after a
    match resume at its end.  [skip] counts the characters still inside the
    last match.  After a match that read nothing the scan moves to the next
    position; no pattern of the repository has such a match. *)
Fixpoint scan (fl : flags) (r : regex) (prev : option ascii) (pos : nat)
    (s : string) (skip : nat) {struct s} : list rmatch :=
  match skip with
  | S k =>
      match s with
      | EmptyString => []
      | String x s' => scan fl r (Some x) (S pos) s' k
      end
  | O =>
      match match_at fl r prev pos s with
      | Some m =>
          m :: match s with
               | EmptyString => []
               | String x s' => scan fl r (Some x) (S pos) s' (m_end m - pos - 1)
               end
      | None =>
          match s with
          | EmptyString => []
          | String x s' => scan fl r (Some x) (S pos) s' 0
          end
      end
  end.

Definition finditer (r : regex) (text : string) (fl : flags) : list rmatch :=
  scan fl r None 0 text 0.

Fixpoint has_group (r : regex) : bool :=
  match r with
  | RGroup _ => true
  | RSeq a b | RAlt a b => has_group a || has_group b
  | ROpt a => has_group a
  | _ => false
  end.

(** What [findall] lists for a match: group 1 when the pattern has a group
    (the empty string if it took no part), the whole match otherwise. *)
Definition findall_item (r : regex) (m : rmatch) : string :=
  if has_group r then default EmptyString (group1 m) else group0 m.

Definition findall (r : regex) (text : string) (fl : flags) : list string :=
  map (findall_item r) (finditer r text fl).

(** *** Pattern syntax *)

Definition chr (a : ascii) : regex := RSet (CChar a).

Fixpoint lit (s : string) : regex :=
  match s with
  | EmptyString => REps
  | String x EmptyString => chr x
  | String x s' => RSeq (chr x) (lit s')
  end.

Definition plus (c : cset) : regex := RSeq (RSet c) (RStar c).
Definition lazy_plus (c : cset) : regex := RSeq (RSet c) (RLazyStar c).

Fixpoint seqs (rs : list regex) : regex :=
  match rs with
  | [] => REps
  | [r] => r
  | r :: rs' => RSeq r (seqs rs')
  end.

(** [x{0,n}], greedy *)
Fixpoint upto (r : regex) (n : nat) : regex :=
  match n with
  | O => REps
  | S O => ROpt r
  | S k => ROpt (RSeq r (upto r k))
  end.

(** [x{m,n}], greedy *)
Fixpoint rep_range (r : regex) (m n : nat) : regex :=
  match m with
  | O => upto r n
  | S O => match n with S O => r | _ => RSeq r (upto r (n - 1)) end
  | S m' => RSeq r (rep_range r m' (n - 1))
  end.

Definition rep (r : regex) (n : nat) : regex := rep_range r n n.

Definition cset_of_chars (s : string) : cset :=
  match s with
  | EmptyString => CNot (CUnion CDigit (CNot CDigit))
  | String x s' =>
      (fix go (acc : cset) (t : string) : cset :=
         match t with
         | EmptyString => acc
         | String y t' => go (CUnion acc (CChar y)) t'
         end) (CChar x) s'
  end.

End Re.

(** ** Exceptions, results and the outside world *)

(** The exceptions that derive from [Exception], which is what the
    [except Exception] clauses of the code catch; [OtherError] stands for
    those of a library, with their text. *)
Inductive exn : Type :=
| ValueError (msg : string)
| RuntimeError (msg : string)
| OSError (msg : string)
| AttributeError (msg : string)
| OtherError (msg : string).

(** [str(e)] *)
Definition exn_str (e : exn) : string :=
  match e with
  | ValueError m | RuntimeError m | OSError m | AttributeError m | OtherError m => m
  end.

Inductive result (A : Type) : Type :=
| Ok (a : A)
| Raise (e : exn).
Arguments Ok {A} a.
Arguments Raise {A} e.

#[export] Instance result_ret : MRet result := fun A a => Ok a.
#[export] Instance result_bind : MBind result := fun A B f m =>
  match m with
  | Ok a => f a
  | Raise e => Raise e
  end.

(** A value handed to [extract_job_description]: a [str], or some other
    object (such as [None] or an open file). *)
Inductive source : Type :=
| Str (s : string)
| NotStr (obj : nat).

(** A spaCy entity and the parts of a parsed document the code reads. *)
Record Entity : Type := { ent_text : string; ent_label : string }.

Record Doc : Type := {
  noun_chunks : list string;
  ents : list Entity;
  sents : list string
}.

(** The outside world.  It does not change while one operation runs. *)
Record World : Type := {
  (** [os.path.exists] *)
  path_exists : string -> bool;
  (** [os.walk(top)]: the [(root, files)] of every directory visited. *)
  walk : string -> list (string * list string);
  (** [os.listdir] *)
  listdir : string -> list string;
  (** [pdfplumber.open(src).pages], each page with what its
      [extract_text()] does: raise, return [None], or return text. *)
  pdf_open : source -> result (list (result (option string)));
  (** [[para.text for para in docx.Document(path).paragraphs]] *)
  docx_paragraphs : string -> result (list string);
  (** [open(path, 'r', encoding='utf-8').read()] *)
  read_text : string -> result string;
  (** [spacy.load("en_core_web_md")]: the pipeline, applied to a text. *)
  spacy_load : result (string -> result Doc);
  (** The vectors of the embedding model. *)
  embedding : Type;
  (** [SentenceTransformer("paraphrase-MiniLM-L6-v2")]: the model, which
      embeds one text. *)
  SentenceTransformer : result (string -> result embedding);
  (** [cosine_similarity] of two vectors. *)
  cosine : embedding -> embedding -> Q
}.

(** [model.encode(texts)]: one vector per text. *)
Definition model_encode {E : Type} (model : string -> result E)
    (texts : list string) : result (list E) :=
  mapM model texts.

(** [os.path.join(root, filename)] for a relative [filename] (posixpath). *)
Definition path_join (root filename : string) : string :=
  match root with
  | EmptyString => filename
  | _ => if Py.endswith "/" root then root +:+ filename
         else root +:+ "/" +:+ filename
  end.

(** One more than the index of the last [c] in [s]; 0 when there is none. *)
Fixpoint rfind1 (c : ascii) (s : string) : nat :=
  match s with
  | EmptyString => 0
  | String x s' =>
      match rfind1 c s' with
      | O => if Ascii.eqb x c then 1 else 0
      | S k => S (S k)
      end
  end.

Fixpoint drop (n : nat) (s : string) : string :=
  match n, s with
  | S k, String _ s' => drop k s'
  | _, _ => s
  end.

Fixpoint all_dots (s : string) : bool :=
  match s with
  | EmptyString => true
  | String x s' => Ascii.eqb x "." && all_dots s'
  end.

(** [os.path.splitext(p)] (posixpath): split at the last dot of the last
    path component, unless that component has only leading dots before
    it. *)
Definition splitext (p : string) : string * string :=
  let sep1 := rfind1 "/" p in
  let dot1 := rfind1 "." p in
  if (sep1 <? dot1) && negb (all_dots (Py.take (dot1 - 1 - sep1) (drop sep1 p)))
  then (Py.take (dot1 - 1) p, drop (dot1 - 1) p)
  else (p, EmptyString).

(** [os.path.splitext(filename)[0].replace("_", " ").replace("-", " ")] *)
Definition name_from_file (filename : string) : string :=
  Py.replace_char "-" " " (Py.replace_char "_" " " (fst (splitext filename))).

(** [filename.lower().endswith(('.pdf', '.docx'))] *)
Definition is_resume_file (filename : string) : bool :=
  Py.endswith ".pdf" (Py.lower filename) || Py.endswith ".docx" (Py.lower filename).

Definition LF : ascii := "010"%char.
Definition CR : ascii := "013"%char.

(** ['\n'.join(lines)] *)
Fixpoint join_lines (lines : list string) : string :=
  match lines with
  | [] => EmptyString
  | [l] => l
  | l :: ls => l +:+ String LF (join_lines ls)
  end.

(** The body of [with pdfplumber.open(..) as pdf: for page in pdf.pages:
    text += page.extract_text() or ""], shared by both parsers. *)
Fixpoint pdf_pages_text (text : string) (pages : list (result (option string)))
    : result string :=
  match pages with
  | [] => Ok text
  | Ok (Some t) :: ps => pdf_pages_text (text +:+ t) ps
  | Ok None :: ps => pdf_pages_text (text +:+ EmptyString) ps
  | Raise e :: _ => Raise e
  end.

Definition pdf_text (w : World) (src : source) : result string :=
  pages ← pdf_open w src; pdf_pages_text EmptyString pages.

(** ** resume_parser.py *)

Module ResumeParser.
Import Re.

Definition extract_text_from_docx (w : World) (docx_path : string) : result string :=
  match docx_paragraphs w docx_path with
  | Ok full_text => Ok (join_lines full_text)
  | Raise e =>
      Raise (ValueError ("Error extracting text from Word document: " +:+ exn_str e))
  end.

Record ContactInfo : Type := { name : string; email : string; phone : string }.

Definition upper_set : cset := CRange "A" "Z".
Definition lower_set : cset := CRange "a" "z".
Definition digit : regex := RSet CDigit.
(** [[-.\s]] *)
Definition sep_set : cset := CUnion (CUnion (CChar "-") (CChar ".")) CSpace.

(** [[\w.+-]+@[\w-]+\.[\w.-]+] *)
Definition email_pattern : regex :=
  seqs [plus (CUnion CWord (cset_of_chars ".+-")); chr "@";
        plus (CUnion CWord (CChar "-")); chr ".";
        plus (CUnion CWord (cset_of_chars ".-"))].

(** [(?:\+\d{1,3}[-.\s]?)?] *)
Definition country_code : regex :=
  ROpt (seqs [chr "+"; rep_range digit 1 3; ROpt (RSet sep_set)]).

(** [\(?\d{3}\)?[-.\s]?\d{3}[-.\s]?\d{4}] after the country code *)
Definition phone_north_american : regex :=
  seqs [country_code; ROpt (chr "("); rep digit 3; ROpt (chr ")");
        ROpt (RSet sep_set); rep digit 3; ROpt (RSet sep_set); rep digit 4].

(** [\d{5}[-.\s]?\d{5,6}] after the country code *)
Definition phone_five_five : regex :=
  seqs [country_code; rep digit 5; ROpt (RSet sep_set); rep_range digit 5 6].

(** [\d{2,4}[-.\s]?\d{2,4}[-.\s]?\d{2,4}[-.\s]?\d{2,4}] after the country
    code *)
Definition phone_grouped : regex :=
  seqs [country_code; rep_range digit 2 4; ROpt (RSet sep_set);
        rep_range digit 2 4; ROpt (RSet sep_set);
        rep_range digit 2 4; ROpt (RSet sep_set); rep_range digit 2 4].

Definition phone_patterns : list regex :=
  [phone_north_american; phone_five_five; phone_grouped].

(** [[A-Z][a-z]+] and [[A-Z][a-z]+(?:\s[A-Z][a-z]+){1,3}] *)
Definition cap_word : regex := RSeq (RSet upper_set) (plus lower_set).
Definition cap_words : regex :=
  RSeq cap_word (rep_range (RSeq (RSet CSpace) cap_word) 1 3).

(** [^([A-Z][a-z]+(?:\s[A-Z][a-z]+){1,3})\s*$] *)
Definition name_capitalized_line : regex :=
  seqs [RBol; RGroup cap_words; RStar CSpace; REol].

(** [^([A-Z]+\s+[A-Z]+(?:\s+[A-Z]+)?)\s*$] *)
Definition name_all_caps_line : regex :=
  seqs [RBol;
        RGroup (seqs [plus upper_set; plus CSpace; plus upper_set;
                      ROpt (RSeq (plus CSpace) (plus upper_set))]);
        RStar CSpace; REol].

(** [(?:Name|NAME):\s*([A-Z][a-z]+(?:\s[A-Z][a-z]+){1,3})] *)
Definition name_labelled : regex :=
  seqs [RAlt (lit "Name") (lit "NAME"); chr ":"; RStar CSpace; RGroup cap_words].

(** [(?:^|\n)([A-Z][a-z]+(?:\s[A-Z][a-z]+){1,3})(?:\n|$)] *)
Definition name_own_line : regex :=
  seqs [RAlt RBol (chr LF); RGroup cap_words; RAlt (chr LF) REol].

Definition name_patterns : list regex :=
  [name_capitalized_line; name_all_caps_line; name_labelled; name_own_line].

(** The loop [for pattern in patterns: ms = re.findall(pattern, text, fl);
    if ms: field = ms[0]; break]: the first match of the first pattern that
    has one. *)
Fixpoint first_findall (patterns : list regex) (text : string) (fl : flags)
    : option string :=
  match patterns with
  | [] => None
  | pattern :: rest =>
      match findall pattern text fl with
      | m :: _ => Some m
      | [] => first_findall rest text fl
      end
  end.

(** The loop over [doc.ents]: the first PERSON entity whose text has at
    least two whitespace-separated parts. *)
Fixpoint first_person (es : list Entity) : option string :=
  match es with
  | [] => None
  | ent :: es' =>
      if String.eqb (ent_label ent) "PERSON" && (2 <=? length (Py.split (ent_text ent)))
      then Some (ent_text ent)
      else first_person es'
  end.

(** The [try: ... except Exception: pass] block: whatever is raised inside
    leaves the name as it was, that is empty. *)
Definition spacy_name (w : World) (text : string) : string :=
  match spacy_load w with
  | Ok nlp =>
      match nlp (Py.take 1000 text) with
      | Ok doc => default EmptyString (first_person (ents doc))
      | Raise _ => EmptyString
      end
  | Raise _ => EmptyString
  end.

(** [if v: v = v.strip()] *)
Definition clean (v : string) : string := if Py.truthy v then Py.strip v else v.

(** The part of [extract_resume_data] after the text is read. *)
Definition extract_contact_info (w : World) (text : string) : ContactInfo :=
  let email0 :=
    match findall email_pattern text no_flags with
    | m :: _ => m
    | [] => EmptyString
    end in
  let phone0 := default EmptyString (first_findall phone_patterns text no_flags) in
  let name0 :=
    match first_findall name_patterns text MULTILINE with
    | Some m => Py.strip m
    | None => EmptyString
    end in
  let name1 := if negb (Py.truthy name0) then spacy_name w text else name0 in
  {| name := clean name1; email := clean email0; phone := clean phone0 |}.

(** The first part of [extract_resume_data]: the text, by file type. *)
Definition read_resume_text (w : World) (file_path : string) : result string :=
  if Py.endswith ".pdf" (Py.lower file_path) then pdf_text w (Str file_path)
  else if Py.endswith ".docx" (Py.lower file_path) then extract_text_from_docx w file_path
  else Raise (ValueError ("Unsupported file format: " +:+ file_path)).

Definition extract_resume_data (w : World) (file_path : string)
    : result (string * ContactInfo) :=
  text ← read_resume_text w file_path;
  Ok (text, extract_contact_info w text).

End ResumeParser.

(** ** job_parser.py *)

Module JobParser.

Definition extract_text_from_docx (w : World) (docx_path : string) : result string :=
  match docx_paragraphs w docx_path with
  | Ok full_text => Ok (join_lines full_text)
  | Raise e =>
      Raise (ValueError ("Error extracting text from Word document: " +:+ exn_str e))
  end.

(** The last part of [extract_job_description]: the source read as a PDF. *)
Definition read_as_pdf (w : World) (src : source) : result string :=
  match pdf_text w src with
  | Ok text => Ok text
  | Raise e => Raise (ValueError ("Error extracting text from PDF: " +:+ exn_str e))
  end.

Definition extract_job_description (w : World) (src : source) : result string :=
  match src with
  | Str s =>
      if negb (path_exists w s) then Ok s
      else if Py.endswith ".txt" (Py.lower s) && path_exists w s then
        match read_text w s with
        | Ok t => Ok t
        | Raise e => Raise (ValueError ("Error reading text file: " +:+ exn_str e))
        end
      else if Py.endswith ".docx" (Py.lower s) && path_exists w s then
        extract_text_from_docx w s
      else read_as_pdf w src
  | NotStr _ => read_as_pdf w src
  end.

End JobParser.

(** ** main.py *)

Module Main.
Import Re.

(** [get_nlp_model]: the loaded pipeline is kept in a global and reused; in
    a world that does not change this is not observable.  Only [OSError] is
    turned into a [RuntimeError]. *)
Definition get_nlp_model (w : World) : result (string -> result Doc) :=
  match spacy_load w with
  | Ok nlp => Ok nlp
  | Raise (OSError _) =>
      Raise (RuntimeError
        "spaCy model 'en_core_web_md' is not installed. Please add it to requirements.txt")
  | Raise e => Raise e
  end.

Definition get_sentence_transformer (w : World)
    : result (string -> result (embedding w)) :=
  SentenceTransformer w.

(** [sorted(results, key=key, reverse=True)]: a stable sort, largest key
    first; entries with equal keys keep their order. *)
Fixpoint insert_desc {A} (key : A -> Q) (x : A) (l : list A) : list A :=
  match l with
  | [] => [x]
  | y :: l' =>
      if Qle_bool (key y) (key x) then x :: y :: l'
      else y :: insert_desc key x l'
  end.

Definition sorted_desc {A} (key : A -> Q) (l : list A) : list A :=
  foldr (insert_desc key) [] l.

(** What a batch operation leaves behind: the entries appended to [results]
    and the lines printed, both in order. *)
Record Batch (A : Type) : Type := { results : list A; printed : list string }.
Arguments results {A} _.
Arguments printed {A} _.

(** The two nested loops over [os.walk]: every file with a resume extension
    goes through [body] inside [try]; an exception prints one line and the
    loop continues. *)
Definition error_line (resume_path : string) (e : exn) : string :=
  "Error processing " +:+ resume_path +:+ ": " +:+ exn_str e.

Definition step {A} (body : string -> string -> result (option A))
    (root : string) (acc : Batch A) (filename : string) : Batch A :=
  if is_resume_file filename then
    match body root filename with
    | Ok (Some r) => {| results := results acc ++ [r]; printed := printed acc |}
    | Ok None => acc
    | Raise e =>
        {| results := results acc;
           printed := printed acc ++ [error_line (path_join root filename) e] |}
    end
  else acc.

Definition walk_loop {A} (w : World) (body : string -> string -> result (option A))
    (resumes_folder : string) : Batch A :=
  fold_left (fun acc '(root, files) => fold_left (step body root) files acc)
    (walk w resumes_folder) {| results := []; printed := [] |}.

(** The [name] entry after [if not contact_info.get("name")]. *)
Definition name_or_filename (ci : ResumeParser.ContactInfo) (filename : string) : string :=
  if negb (Py.truthy (ResumeParser.name ci)) then name_from_file filename
  else ResumeParser.name ci.

Record MatchResult : Type := {
  mr_name : string;
  mr_phone : string;
  mr_email : string;
  score : Q;
  mr_filename : string;
  mr_path : string
}.

(** [model.encode([text])[0]] *)
Definition encode_one {E} (model : string -> result E) (text : string) : result E :=
  vs ← model_encode model [text];
  match vs with
  | v :: _ => Ok v
  | [] => Raise (OtherError "index 0 is out of bounds")
  end.

(** The [try] body of [match_resumes] for one file. *)
Definition match_one (w : World) (model : string -> result (embedding w))
    (job_vec : embedding w) (root filename : string) : result (option MatchResult) :=
  let resume_path := path_join root filename in
  '(resume_text, contact_info) ← ResumeParser.extract_resume_data w resume_path;
  resume_vec ← encode_one model resume_text;
  let similarity := cosine w job_vec resume_vec in
  Ok (Some {| mr_name := name_or_filename contact_info filename;
              mr_phone := ResumeParser.phone contact_info;
              mr_email := ResumeParser.email contact_info;
              score := similarity;
              mr_filename := filename;
              mr_path := resume_path |}).

Definition match_resumes (w : World) (job_description_path : source)
    (resumes_folder : string) : result (Batch MatchResult) :=
  nlp ← get_nlp_model w;
  model ← get_sentence_transformer w;
  job_desc ← JobParser.extract_job_description w job_description_path;
  job_vec ← encode_one model job_desc;
  let b := walk_loop w (match_one w model job_vec) resumes_folder in
  Ok {| results := sorted_desc score (results b); printed := printed b |}.

(** The three [client_patterns]; [[^\n\r]+?] is [not_newline], lazily, and
    [(?:\s*\n|$)] is [line_end]. *)
Definition not_newline : cset := CNot (CUnion (CChar LF) (CChar CR)).
Definition line_end : regex := RAlt (RSeq (RStar CSpace) (chr LF)) REol.

Definition client_patterns : list regex :=
  [ seqs [RAlt RBol (chr LF); RStar CSpace; lit "Client"; RStar CSpace; chr ":";
          RStar CSpace; RGroup (lazy_plus not_newline); line_end];
    seqs [RAlt RBol (chr LF); RStar CSpace; lit "Client"; plus CSpace; chr ":";
          RStar CSpace; RGroup (lazy_plus not_newline); line_end];
    seqs [RAlt RBol (chr LF); RStar CSpace; lit "Client"; RStar CSpace; chr ":";
          RStar CSpace; ROpt (chr LF); RStar CSpace;
          RGroup (lazy_plus not_newline); line_end] ].

Definition generic_names : list string := ["client"; "customer"; "account"].

(** [len(client_name) > 2 and client_name.lower() not in [...]] *)
Definition keep_client (client_name : string) : bool :=
  (2 <? String.length client_name)
  && negb (bool_decide (Py.lower client_name ∈ generic_names)).

(** The body of the inner loop for one match object; [match.group(1)] is
    [None] when the group took no part, and [None.strip()] raises. *)
Definition add_client (clients : gset string) (m : rmatch) : result (gset string) :=
  match group1 m with
  | Some g =>
      let client_name := Py.strip g in
      Ok (if keep_client client_name then clients ∪ {[client_name]} else clients)
  | None => Raise (AttributeError "'NoneType' object has no attribute 'strip'")
  end.

Fixpoint add_clients (clients : gset string) (ms : list rmatch) : result (gset string) :=
  match ms with
  | [] => Ok clients
  | m :: ms' => clients' ← add_client clients m; add_clients clients' ms'
  end.

Fixpoint client_loop (clients : gset string) (patterns : list regex)
    (resume_text : string) : result (gset string) :=
  match patterns with
  | [] => Ok clients
  | pattern :: rest =>
      clients' ← add_clients clients (finditer pattern resume_text IGNORECASE);
      client_loop clients' rest resume_text
  end.

(** [extract_client_information]: the set [clients]; the list the function
    returns is [list(clients)], the elements in an order Python does not
    fix. *)
Definition extract_client_information (w : World) (resume_text : string)
    (doc : option Doc) : result (gset string) :=
  _ ← match doc with
      | None => nlp ← get_nlp_model w; nlp resume_text
      | Some d => Ok d
      end;
  client_loop ∅ client_patterns resume_text.

Record SkillMatchResult : Type := {
  sr_name : string;
  sr_phone : string;
  sr_email : string;
  match_score : Q;
  matched_skills : list string;
  clients : list string;
  sr_filename : string;
  sr_path : string
}.

Definition skill_keywords : list string :=
  ["experience"; "proficient"; "skill"; "technology"; "framework"; "language"; "tool"].

(** The candidate phrases of a parsed resume. *)
Definition potential_skills (doc : Doc) : list string :=
  noun_chunks doc
  ++ map ent_text
       (List.filter (fun ent => bool_decide (ent_label ent ∈ ["ORG"; "PRODUCT"; "GPE"]))
          (ents doc))
  ++ List.filter
       (fun sent => existsb (fun keyword => Py.contains keyword (Py.lower sent)) skill_keywords)
       (sents doc).

(** [max(xs)]: the first largest item; raises on an empty sequence. *)
Definition py_max (xs : list Q) : result Q :=
  match xs with
  | [] => Raise (ValueError "max() arg is an empty sequence")
  | x :: xs' => Ok (fold_left (fun m y => if Qle_bool y m then m else y) xs' x)
  end.

(** [cosine_similarity([v], vs)[0]] *)
Definition similarities (w : World) (v : embedding w) (vs : list (embedding w)) : list Q :=
  map (cosine w v) vs.

(** The loop [for i, skill in enumerate(skills)], over the skills paired
    with their embeddings: [matched_skills] and [match_scores]. *)
Fixpoint skill_loop (w : World) (skills : list (string * embedding w))
    (potential_skill_embeddings : list (embedding w)) (min_threshold : Q)
    : result (list string * list Q) :=
  match skills with
  | [] => Ok ([], [])
  | (skill, skill_embedding) :: rest =>
      best ← py_max (similarities w skill_embedding potential_skill_embeddings);
      '(matched, scores) ← skill_loop w rest potential_skill_embeddings min_threshold;
      Ok (if Qle_bool min_threshold best
          then (skill :: matched, best :: scores)
          else (matched, scores))
  end.

(** [sum(xs) / len(xs)] *)
Definition py_sum (xs : list Q) : Q := fold_left Qplus xs 0%Q.

Definition mean (xs : list Q) : Q :=
  (py_sum xs / inject_Z (Z.of_nat (length xs)))%Q.

(** The [try] body of [filter_resumes_by_skills] for one file. *)
Definition filter_one (w : World) (nlp : string -> result Doc)
    (model : string -> result (embedding w)) (skills : list string)
    (skill_embeddings : list (embedding w)) (min_threshold : Q)
    (root filename : string) : result (option SkillMatchResult) :=
  let resume_path := path_join root filename in
  '(resume_text, contact_info) ← ResumeParser.extract_resume_data w resume_path;
  doc ← nlp resume_text;
  let candidates := potential_skills doc in
  client_set ← extract_client_information w resume_text (Some doc);
  match candidates with
  | [] => Ok None
  | _ =>
      potential_skill_embeddings ← model_encode model candidates;
      '(matched, scores) ←
        skill_loop w (zip skills skill_embeddings) potential_skill_embeddings min_threshold;
      match matched with
      | [] => Ok None
      | _ =>
          Ok (Some {| sr_name := name_or_filename contact_info filename;
                      sr_phone := ResumeParser.phone contact_info;
                      sr_email := ResumeParser.email contact_info;
                      match_score := mean scores;
                      matched_skills := matched;
                      clients := elements client_set;
                      sr_filename := filename;
                      sr_path := resume_path |})
      end
  end.

Definition filter_resumes_by_skills (w : World) (resumes_folder : string)
    (skills : list string) (min_threshold : Q) : result (Batch SkillMatchResult) :=
  nlp ← get_nlp_model w;
  model ← get_sentence_transformer w;
  skill_embeddings ← model_encode model skills;
  let b := walk_loop w (filter_one w nlp model skills skill_embeddings min_threshold)
             resumes_folder in
  Ok {| results := sorted_desc match_score (results b); printed := printed b |}.

End Main.

(** ** app.py: the guards of the two buttons

    What [main] checks between a click and the start of the batch
    operation.  Drawing the results is outside the model. *)

Module App.

Definition temp_resume_dir : string := "temp_resumes".

(** What a click leads to: an [st.error] message and nothing else, or the
    start of the operation with the arguments it gets. *)
Inductive Clicked : Type :=
| StError (msg : string)
| StartMatching (job_description_path : string)
| StartFiltering (skills : list string) (min_threshold : Q)
                 (outcome : result (Main.Batch Main.SkillMatchResult)).


(** [[s.strip() for s in skills_input.split(",") if s.strip()]] *)
Definition parse_skills (skills_input : string) : list string :=
  map Py.strip
    (List.filter (fun s => Py.truthy (Py.strip s)) (Py.split_on "," skills_input)).

(** [if st.sidebar.button("Filter Resumes")] *)
Definition filter_button (w : World) (skills_input : string) (min_threshold : Q)
    : Clicked :=
  if Py.truthy skills_input && path_exists w temp_resume_dir then
    match parse_skills skills_input with
    | [] => StError "Enter at least one skill."
    | skills =>
        StartFiltering skills min_threshold
          (Main.filter_resumes_by_skills w temp_resume_dir skills min_threshold)
    end
  else StError "Upload resumes and enter skills.".

End App.

(** ** What a successful match looks like

    [matches fl r st u st'] : from state [st] the expression [r] can read
    the text [u] and end in [st'].  Every answer of [exec] is of this
    form. *)

Module ReSpec.
Import Re.

Inductive matches (fl : flags) : regex -> mstate -> string -> mstate -> Prop :=
| M_eps st : matches fl REps st EmptyString st
| M_set c x s' st :
    m_rest st = String x s' -> cset_mem fl c x = true ->
    matches fl (RSet c) st (String x EmptyString) (advance x s' st)
| M_seq a b st u st1 v st2 :
    matches fl a st u st1 -> matches fl b st1 v st2 ->
    matches fl (RSeq a b) st (u +:+ v) st2
| M_alt_l a b st u st' : matches fl a st u st' -> matches fl (RAlt a b) st u st'
| M_alt_r a b st u st' : matches fl b st u st' -> matches fl (RAlt a b) st u st'
| M_opt_some a st u st' : matches fl a st u st' -> matches fl (ROpt a) st u st'
| M_opt_none a st : matches fl (ROpt a) st EmptyString st
| M_star_nil c st : matches fl (RStar c) st EmptyString st
| M_star_cons c x s' st v st' :
    m_rest st = String x s' -> cset_mem fl c x = true ->
    matches fl (RStar c) (advance x s' st) v st' ->
    matches fl (RStar c) st (String x v) st'
| M_lazy_nil c st : matches fl (RLazyStar c) st EmptyString st
| M_lazy_cons c x s' st v st' :
    m_rest st = String x s' -> cset_mem fl c x = true ->
    matches fl (RLazyStar c) (advance x s' st) v st' ->
    matches fl (RLazyStar c) st (String x v) st'
| M_group a st u st' :
    matches fl a st u st' -> matches fl (RGroup a) st u (close_group st st')
| M_bol st : at_bol fl st = true -> matches fl RBol st EmptyString st
| M_eol st : at_eol fl st = true -> matches fl REol st EmptyString st.

(** The last character of a text. *)
Fixpoint last_char (s : string) : option ascii :=
  match s with
  | EmptyString => None
  | String x EmptyString => Some x
  | String _ s' => last_char s'
  end.

Definition first_char (s : string) : option ascii :=
  match s with
  | EmptyString => None
  | String x _ => Some x
  end.

Definition all_chars : list ascii := map ascii_of_nat (seq 0 256).

(** Every character of the set satisfies [P]. *)
Definition cset_within (fl : flags) (P : ascii -> bool) (c : cset) : bool :=
  forallb (fun x => implb (cset_mem fl c x) (P x)) all_chars.

(** [never_empty r]: a match of [r] reads at least one character. *)
Fixpoint never_empty (r : regex) : bool :=
  match r with
  | RSet _ => true
  | RSeq a b => never_empty a || never_empty b
  | RAlt a b => never_empty a && never_empty b
  | RGroup a => never_empty a
  | _ => false
  end.

(** [starts_within fl P r]: the first character read by a match of [r], if
    any, satisfies [P]. *)
Fixpoint starts_within (fl : flags) (P : ascii -> bool) (r : regex) : bool :=
  match r with
  | REps | RBol | REol => true
  | RSet c | RStar c | RLazyStar c => cset_within fl P c
  | RSeq a b => starts_within fl P a && (never_empty a || starts_within fl P b)
  | RAlt a b => starts_within fl P a && starts_within fl P b
  | ROpt a | RGroup a => starts_within fl P a
  end.

(** [ends_within fl P r]: the last character read by a match of [r], if
    any, satisfies [P]. *)
Fixpoint ends_within (fl : flags) (P : ascii -> bool) (r : regex) : bool :=
  match r with
  | REps | RBol | REol => true
  | RSet c | RStar c | RLazyStar c => cset_within fl P c
  | RSeq a b => ends_within fl P b && (never_empty b || ends_within fl P a)
  | RAlt a b => ends_within fl P a && ends_within fl P b
  | ROpt a | RGroup a => ends_within fl P a
  end.

(** [captures F r]: every match of [r] goes last through a group whose body
    passes the check [F]. *)
Fixpoint captures (F : regex -> bool) (r : regex) : bool :=
  match r with
  | RGroup a => F a
  | RSeq a b => captures F b || (captures F a && negb (has_group b))
  | RAlt a b => captures F a && captures F b
  | _ => false
  end.

(** A text that [strip] leaves alone: not empty, no space at either end. *)
Definition trimmed (s : string) : Prop :=
  (exists x, first_char s = Some x /\ Py.isspace x = false) /\
  (exists y, last_char s = Some y /\ Py.isspace y = false).

Definition not_space (x : ascii) : bool := negb (Py.isspace x).

(** The check that makes every match of [r] a [trimmed] text. *)
Definition reads_trimmed (fl : flags) (r : regex) : bool :=
  never_empty r && starts_within fl not_space r && ends_within fl not_space r.

End ReSpec.

(** ** A small world to run the code in

    A folder [cv] with two resumes that read well, one that pdfplumber
    cannot open and a file that is not a resume, and a folder [pair] with
    the broken resume and one good one; a pipeline that finds one noun
    chunk, an organisation and two PERSON entities, and takes the whole
    text as one sentence; vectors that are the texts themselves, two texts
    being similar when the first occurs in the second. *)

Module Demo.

Definition jane_text : string :=
  "Jane Doe" +:+ String LF
  ("jane.doe@example.com" +:+ String LF
  ("(555) 123-4567 or +91 98765 43210" +:+ String LF
  ("Client: Acme Corp" +:+ String LF
  ("Client:customer" +:+ String LF
  "5 years of experience with Python frameworks")))).

Definition maria_text : string :=
  "curriculum vitae of Maria Lopez, engineer".

Definition intl_first_text : string := "+91 98765 43210 and (555) 123-4567".


Definition parse (text : string) : result Doc :=
  Ok {| noun_chunks :=
          if Py.contains "Python" text then ["Python frameworks"] else ["curriculum vitae"];
        ents := [ {| ent_text := "Acme Corp"; ent_label := "ORG" |};
                  {| ent_text := "Maria"; ent_label := "PERSON" |};
                  {| ent_text := "Maria Lopez"; ent_label := "PERSON" |} ];
        sents := [text] |}.

Definition cv_files : list string := ["broken.pdf"; "jane.pdf"; "maria.pdf"; "notes.txt"].
Definition pair_files : list string := ["broken.pdf"; "jane.pdf"].

Definition world : World := {|
  path_exists := fun p =>
    bool_decide (p ∈ ["cv"; "pair"; "pair/broken.pdf"; "pair/jane.pdf"; "temp_resumes"]);
  walk := fun top =>
    if String.eqb top "cv" then [("cv", cv_files)]
    else if String.eqb top "pair" then [("pair", pair_files)]
    else [];
  listdir := fun top =>
    if String.eqb top "cv" then cv_files
    else if String.eqb top "pair" then pair_files
    else [];
  pdf_open := fun src =>
    match src with
    | Str p =>
        if Py.endswith "jane.pdf" p then Ok [Ok (Some jane_text); Ok None]
        else if Py.endswith "maria.pdf" p then Ok [Ok (Some maria_text)]
        else Raise (OtherError "Unexpected EOF")
    | NotStr _ => Raise (OtherError "Unexpected EOF")
    end;
  docx_paragraphs := fun _ => Raise (OtherError "Package not found");
  read_text := fun _ => Raise (OSError "No such file or directory");
  spacy_load := Ok parse;
  embedding := string;
  SentenceTransformer := Ok (fun text => Ok text);
  cosine := fun a b =>
    if String.eqb a b then 1%Q
    else if Py.contains (Py.lower a) (Py.lower b) then (3 # 4)%Q
    else 0%Q
|}.

(** The same world without the spaCy model. *)
Definition world_without_spacy : World := {|
  path_exists := path_exists world;
  walk := walk world;
  listdir := listdir world;
  pdf_open := pdf_open world;
  docx_paragraphs := docx_paragraphs world;
  read_text := read_text world;
  spacy_load := Raise (OSError "[E050] Can't find model 'en_core_web_md'.");
  embedding := embedding world;
  SentenceTransformer := SentenceTransformer world;
  cosine := cosine world
|}.

End Demo.

(** ** Notions used to state what the code does *)

Module Spec.
Import Re.

(** The state in which a match attempt at position [pos] starts. *)
Definition start_state (prev : option ascii) (pos : nat) (s : string) : mstate :=
  {| m_prev := prev; m_rest := s; m_pos := pos; m_group := None |}.

(** The character before the end of [s], or [prev] when [s] is empty. *)
Fixpoint last_of (prev : option ascii) (s : string) : option ascii :=
  match s with
  | EmptyString => prev
  | String x s' => last_of (Some x) s'
  end.

(** An entity the name fall-back accepts: a PERSON with at least two
    whitespace-separated parts. *)
Definition full_person (ent : Entity) : Prop :=
  ent_label ent = "PERSON" /\ 2 <= length (Py.split (ent_text ent)).

(** [c] is the trimmed capture of a match of one of the client patterns in
    [text], longer than two characters and not a generic word. *)
Definition client_capture (text c : string) : Prop :=
  exists pattern m g,
    pattern ∈ Main.client_patterns
    /\ In m (finditer pattern text IGNORECASE)
    /\ group1 m = Some g
    /\ c = Py.strip g
    /\ 2 < String.length c
    /\ Py.lower c ∉ Main.generic_names.

(** [m] is a maximum of [xs]. *)
Definition is_max (m : Q) (xs : list Q) : Prop :=
  In m xs /\ Forall (fun x => (x <= m)%Q) xs.

(** The sum of a list of scores. *)
Definition total (xs : list Q) : Q := foldr Qplus 0%Q xs.

(** [m] is the arithmetic mean of the non-empty list [xs]. *)
Definition is_mean (m : Q) (xs : list Q) : Prop :=
  xs <> [] /\ (m * inject_Z (Z.of_nat (length xs)) == total xs)%Q.

(** The files a batch operation looks at, in the order of the walk: every
    file with a resume extension, with the directory it is in. *)
Definition resume_files (w : World) (resumes_folder : string) : list (string * string) :=
  flat_map (fun '(root, files) => map (pair root) (List.filter is_resume_file files))
    (walk w resumes_folder).

(** The entry a file adds to [results] and the line it prints. *)
Definition entry_of {A} (body : string -> string -> result (option A))
    (file : string * string) : option A :=
  match body file.1 file.2 with
  | Ok (Some r) => Some r
  | _ => None
  end.

Definition report_of {A} (body : string -> string -> result (option A))
    (file : string * string) : option string :=
  match body file.1 file.2 with
  | Raise e => Some (Main.error_line (path_join file.1 file.2) e)
  | _ => None
  end.

(** A list in which no entry is followed, anywhere later, by one with a
    larger key. *)
Definition ranked {A} (key : A -> Q) (l : list A) : Prop :=
  StronglySorted (fun a b => (key b <= key a)%Q) l.

(** How one entry of the skill filter relates to its resume: the candidate
    phrases [candidates] are not empty; [bests] lists, for every skill in
    order, a maximum of its similarities to the candidates; the matched
    skills are those whose maximum reaches the threshold, and the score is
    the mean of their maxima. *)
Definition skill_entry_spec (w : World) (model : string -> result (embedding w))
    (skills : list string) (min_threshold : Q) (candidates : list string)
    (e : Main.SkillMatchResult) : Prop :=
  exists (candidate_vecs skill_vecs : list (embedding w)) (bests : list Q),
    candidates <> []
    /\ Forall2 (fun s v => model s = Ok v) candidates candidate_vecs
    /\ Forall2 (fun s v => model s = Ok v) skills skill_vecs
    /\ Forall2 (fun v best => is_max best (map (cosine w v) candidate_vecs)) skill_vecs bests
    /\ Main.matched_skills e
       = map fst (List.filter (fun sb => Qle_bool min_threshold sb.2) (zip skills bests))
    /\ Main.matched_skills e <> []
    /\ is_mean (Main.match_score e) (List.filter (Qle_bool min_threshold) bests).


End Spec.

(** ** More ways to look at a match

    Checks on an expression that bound what its matches can contain, and
    the functions on texts they are stated with. *)

Module ReChecks.
Import Re ReSpec.

(** Every character of [s] satisfies [P]. *)
Fixpoint all_in (P : ascii -> bool) (s : string) : bool :=
  match s with
  | EmptyString => true
  | String x s' => P x && all_in P s'
  end.

(** The number of characters of [s] that satisfy [P]. *)
Fixpoint count_in (P : ascii -> bool) (s : string) : nat :=
  match s with
  | EmptyString => 0
  | String x s' => (if P x then 1 else 0) + count_in P s'
  end.

(** [reads_only fl P r]: a match of [r] reads only characters that satisfy
    [P]. *)
Fixpoint reads_only (fl : flags) (P : ascii -> bool) (r : regex) : bool :=
  match r with
  | REps | RBol | REol => true
  | RSet c | RStar c | RLazyStar c => cset_within fl P c
  | RSeq a b | RAlt a b => reads_only fl P a && reads_only fl P b
  | ROpt a | RGroup a => reads_only fl P a
  end.

(** [reads_at_least fl P r]: a number of characters satisfying [P] that
    every match of [r] reads. *)
Fixpoint reads_at_least (fl : flags) (P : ascii -> bool) (r : regex) : nat :=
  match r with
  | RSet c => if cset_within fl P c then 1 else 0
  | RSeq a b => reads_at_least fl P a + reads_at_least fl P b
  | RAlt a b => Nat.min (reads_at_least fl P a) (reads_at_least fl P b)
  | RGroup a => reads_at_least fl P a
  | _ => 0
  end.

(** How far a text has got towards holding two words: 0 before the first
    word, 1 inside it, 2 in the space after it, 3 once a second word has
    begun. *)
Definition word_step (l : nat) (x : ascii) : nat :=
  match l with
  | 0 => if Py.isspace x then 0 else 1
  | 1 => if Py.isspace x then 2 else 1
  | 2 => if Py.isspace x then 2 else 3
  | _ => l
  end.

Fixpoint word_level (l : nat) (s : string) : nat :=
  match s with
  | EmptyString => l
  | String x s' => word_level (word_step l x) s'
  end.

(** A level that every match of [r] reaches when it starts at level [l]. *)
Fixpoint reaches (fl : flags) (r : regex) (l : nat) : nat :=
  match r with
  | RSet c =>
      if cset_within fl not_space c then
        match l with 0 => 1 | 2 => 3 | _ => l end
      else if cset_within fl Py.isspace c then
        match l with 1 => 2 | _ => l end
      else l
  | RSeq a b => reaches fl b (reaches fl a l)
  | RAlt a b => Nat.min (reaches fl a l) (reaches fl b l)
  | RGroup a => reaches fl a l
  | _ => l
  end.

(** The number of words of a text read from [s] on, [inw] telling whether
    a word is under way: the length of what [str.split()] returns. *)
Fixpoint count_words (inw : bool) (s : string) : nat :=
  match s with
  | EmptyString => if inw then 1 else 0
  | String x s' =>
      if Py.isspace x then (if inw then 1 else 0) + count_words false s'
      else count_words true s'
  end.

(** The characters of an e-mail match and of a phone match. *)
Definition email_char (x : ascii) : bool :=
  Py.isword x || bool_decide (x ∈ ["."; "+"; "-"; "@"]%char).

Definition phone_char (x : ascii) : bool :=
  Py.isdigit x || Py.isspace x || bool_decide (x ∈ ["+"; "("; ")"; "-"; "."]%char).

Definition is_at (x : ascii) : bool := Ascii.eqb x "@".

Definition not_line_break (x : ascii) : bool :=
  negb (Ascii.eqb x LF) && negb (Ascii.eqb x CR).

End ReChecks.

(** ** Further notions used in the statements *)

Module Parts.

(** The entries whose key equals [q], in the order of the list. *)
Definition with_key {A} (key : A -> Q) (q : Q) (l : list A) : list A :=
  List.filter (fun x => Qeq_bool (key x) q) l.

(** The text of a PDF whose pages all give their text: the texts in page
    order, a page without text counting as empty. *)
Fixpoint join_pages (pages : list (option string)) : string :=
  match pages with
  | [] => EmptyString
  | p :: ps => default EmptyString p +:+ join_pages ps
  end.

(** Any character but [c]. *)
Definition is_not (c x : ascii) : bool := negb (Ascii.eqb x c).

End Parts.

(** ** app.py: the loop behind the "Match Resumes" button

    Once the guards of [App.match_button] have passed, the front end does
    not call [match_resumes]: it has a loop of its own over
    [os.listdir(temp_resume_dir)].  [nlp] is the pipeline that the module
    loads when it starts. *)

Module Tab1.
Import Main.

(** One dictionary appended to [matches]. *)
Record Row : Type := {
  row_name : string;
  row_email : string;
  row_phone : string;
  row_score : Q;
  row_clients : list string;
  row_filename : string
}.

(** The length of the slice [resume_text[:20000]]. *)
Definition doc_limit : nat := 20 * 1000.

(** The inner [try] body for one file. *)
Definition match_file (w : World) (nlp : string -> result Doc)
    (model : string -> result (embedding w)) (job_desc : string)
    (filename : string) : result Row :=
  let file_path := path_join App.temp_resume_dir filename in
  '(resume_text, contact_info) ← ResumeParser.extract_resume_data w file_path;
  job_vec ← encode_one model job_desc;
  resume_vec ← encode_one model resume_text;
  let similarity := cosine w job_vec resume_vec in
  doc ← nlp (Py.take doc_limit resume_text);
  client_set ← extract_client_information w resume_text (Some doc);
  Ok {| row_name := name_or_filename contact_info filename;
        row_email := ResumeParser.email contact_info;
        row_phone := ResumeParser.phone contact_info;
        row_score := similarity;
        row_clients := elements client_set;
        row_filename := filename |}.

(** [st.error(f"Error processing {filename}: {str(e)}")] *)
Definition error_message (filename : string) (e : exn) : string :=
  "Error processing " +:+ filename +:+ ": " +:+ exn_str e.

(** One turn of [for filename in os.listdir(temp_resume_dir)]; [printed]
    holds the messages given to [st.error]. *)
Definition step (body : string -> result Row) (acc : Batch Row) (filename : string)
    : Batch Row :=
  if is_resume_file filename then
    match body filename with
    | Ok r => {| results := results acc ++ [r]; printed := printed acc |}
    | Raise e =>
        {| results := results acc;
           printed := printed acc ++ [error_message filename e] |}
    end
  else acc.

(** The outer [try] block up to the end of the loop: [matches] and the
    messages shown; an exception of the first three lines leaves the block. *)
Definition matching (w : World) (nlp : string -> result Doc)
    (job_description_path : string) : result (Batch Row) :=
  nlp_model ← get_nlp_model w;
  model ← get_sentence_transformer w;
  job_desc ← JobParser.extract_job_description w (Str job_description_path);
  Ok (fold_left (step (match_file w nlp model job_desc))
        (listdir w App.temp_resume_dir) {| results := []; printed := [] |}).

(** The row a file adds to [matches] and the message it leads to. *)
Definition row_of (body : string -> result Row) (filename : string) : option Row :=
  if is_resume_file filename then
    match body filename with Ok r => Some r | Raise _ => None end
  else None.

Definition message_of (body : string -> result Row) (filename : string) : option string :=
  if is_resume_file filename then
    match body filename with Ok _ => None | Raise e => Some (error_message filename e) end
  else None.

(** [matches[:top_n]], the rows of the table. *)
Definition table (top_n : nat) (b : Batch Row) : list Row := firstn top_n (results b).

(** What a row and an entry of [match_resumes] have in common: name, email,
    phone, score and file name. *)
Definition Summary : Type := string * string * string * Q * string.

Definition summary_score (s : Summary) : Q := s.1.2.

Definition row_summary (r : Row) : Summary :=
  (row_name r, row_email r, row_phone r, row_score r, row_filename r).

Definition match_summary (r : MatchResult) : Summary :=
  (mr_name r, mr_email r, mr_phone r, score r, mr_filename r).

End Tab1.

(** ** Shapes of the values handed on *)

Module Shapes.
Import ReChecks Parts.

(** A name as [extract_client_information] keeps it: trimmed, on one line,
    longer than two characters and not a generic word. *)
Definition client_name (c : string) : Prop :=
  Py.strip c = c
  /\ all_in not_line_break c = true
  /\ 2 < String.length c
  /\ Py.lower c ∉ Main.generic_names.

(** A skill as the front end hands it to [filter_resumes_by_skills]: not
    empty, trimmed and without a comma. *)
Definition skill_name (s : string) : Prop :=
  s <> EmptyString /\ Py.strip s = s /\ all_in (is_not ",") s = true.

End Shapes.

(** ** A second world

    The resume folder of the front end holds a Word document, a PDF file, a
    file that cannot be read and a text file; the job description is a Word
    document. *)

Module Office.

Definition ana_paragraphs : list string :=
  ["Ana Silva"; "ana.silva@example.com"; "Client: Globex Ltd"; "Skills: Python"].

Definition job_paragraphs : list string := ["Data engineer"; "Python and SQL"].

Definition joe_text : string := "Joe Smith" +:+ String LF "Python developer".

Definition files : list string := ["joe_smith.pdf"; "torn.pdf"; "ana.docx"; "readme.txt"].

Definition world : World := {|
  path_exists := fun p =>
    bool_decide (p ∈ ["temp_resumes"; "temp_job_jd.docx"]);
  walk := fun top => if String.eqb top "temp_resumes" then [("temp_resumes", files)] else [];
  listdir := fun top => if String.eqb top "temp_resumes" then files else [];
  pdf_open := fun src =>
    match src with
    | Str p =>
        if Py.endswith "joe_smith.pdf" p then Ok [Ok (Some joe_text)]
        else Raise (OtherError "Unexpected EOF")
    | NotStr _ => Raise (OtherError "Unexpected EOF")
    end;
  docx_paragraphs := fun p =>
    if Py.endswith "ana.docx" p then Ok ana_paragraphs
    else if Py.endswith "jd.docx" p then Ok job_paragraphs
    else Raise (OtherError "Package not found");
  read_text := fun _ => Raise (OSError "No such file or directory");
  spacy_load := Ok Demo.parse;
  embedding := string;
  SentenceTransformer := Ok (fun text => Ok text);
  cosine := fun a b =>
    if String.eqb a b then 1%Q
    else if Py.contains "Joe" b then (1 # 4)%Q
    else (3 # 4)%Q
|}.

End Office.

(** ** Facts about strings *)

Module StrFacts.

Lemma str_app_nil_l (s : string) : EmptyString +:+ s = s.
Proof. reflexivity. Qed.

Lemma str_app_cons (x : ascii) (s t : string) : String x s +:+ t = String x (s +:+ t).
Proof. reflexivity. Qed.

Ltac app_step := rewrite ?str_app_nil_l, ?str_app_cons in *.

Lemma str_app_empty_r (s : string) : s +:+ EmptyString = s.
Proof. induction s as [|x s IH]; app_step; [done | by rewrite IH]. Qed.

Lemma str_app_assoc (a b c : string) : (a +:+ b) +:+ c = a +:+ (b +:+ c).
Proof. induction a as [|x a IH]; app_step; [done | by rewrite IH]. Qed.

Lemma str_length_app (a b : string) :
  String.length (a +:+ b) = String.length a + String.length b.
Proof. induction a as [|x a IH]; app_step; simpl; [done | by rewrite IH]. Qed.

Lemma take_app (a b : string) : Py.take (String.length a) (a +:+ b) = a.
Proof. induction a as [|x a IH]; app_step; simpl; [by destruct b | by rewrite IH]. Qed.

Lemma take_empty (n : nat) : Py.take n EmptyString = EmptyString.
Proof. by destruct n. Qed.

Lemma first_char_app (a b : string) x :
  ReSpec.first_char a = Some x -> ReSpec.first_char (a +:+ b) = Some x.
Proof. destruct a; app_step; simpl; [done | auto]. Qed.

Lemma last_char_app (a b : string) :
  b <> EmptyString -> ReSpec.last_char (a +:+ b) = ReSpec.last_char b.
Proof.
  intros Hb. induction a as [|x a IH]; app_step; simpl; [done|].
  rewrite <- IH. destruct (a +:+ b) eqn:E; [|done].
  destruct a; app_step; [congruence | discriminate].
Qed.

Lemma str_app_eq_empty (a b : string) :
  a +:+ b = EmptyString -> a = EmptyString /\ b = EmptyString.
Proof. destruct a; app_step; [auto | discriminate]. Qed.

(** [strip] leaves a trimmed text alone. *)
Lemma lstrip_first (s : string) x :
  ReSpec.first_char s = Some x -> Py.isspace x = false -> Py.lstrip s = s.
Proof. destruct s; simpl; [done|]. intros [= ->] ->. done. Qed.

Lemma rstrip_last (s : string) y :
  ReSpec.last_char s = Some y -> Py.isspace y = false -> Py.rstrip s = s.
Proof.
  induction s as [|x s IH]; simpl; [done|].
  destruct s as [|x' s'].
  - intros [= ->] ->. done.
  - intros Hl Hy. rewrite (IH Hl Hy). done.
Qed.

Lemma strip_trimmed (s : string) : ReSpec.trimmed s -> Py.strip s = s.
Proof.
  intros [(x & Hx & Hsx) (y & Hy & Hsy)]. unfold Py.strip.
  rewrite (lstrip_first _ _ Hx Hsx). by apply rstrip_last with y.
Qed.

Lemma trimmed_truthy (s : string) : ReSpec.trimmed s -> Py.truthy s = true.
Proof. intros [(x & Hx & _) _]. by destruct s. Qed.

Lemma all_chars_complete (x : ascii) : In x ReSpec.all_chars.
Proof.
  unfold ReSpec.all_chars. apply in_map_iff. exists (nat_of_ascii x). split.
  - apply ascii_nat_embedding.
  - apply in_seq. pose proof (nat_ascii_bounded x). lia.
Qed.

End StrFacts.

(** ** Facts about the matcher *)

Module ReFacts.
Import Re ReSpec Spec StrFacts.

Lemma orelse_some {A} (a b : option A) r :
  orelse a b = Some r -> a = Some r \/ b = Some r.
Proof. destruct a; simpl; auto. Qed.

Lemma star_greedy_sound {A} fl c (k : mstate -> option A) res :
  forall s st, m_rest st = s ->
    star_greedy fl c s st k = Some res ->
    exists u st', matches fl (RStar c) st u st' /\ k st' = Some res.
Proof.
  induction s as [|x s IH]; intros st Hs H; simpl in H.
  - exists EmptyString, st. split; [constructor | done].
  - destruct (cset_mem fl c x) eqn:Hc.
    + apply orelse_some in H as [H|H].
      * apply IH in H as (u & st' & Hm & Hk); [|done].
        exists (String x u), st'. split; [|done]. by eapply M_star_cons.
      * exists EmptyString, st. split; [constructor | done].
    + exists EmptyString, st. split; [constructor | done].
Qed.

Lemma star_lazy_sound {A} fl c (k : mstate -> option A) res :
  forall s st, m_rest st = s ->
    star_lazy fl c s st k = Some res ->
    exists u st', matches fl (RLazyStar c) st u st' /\ k st' = Some res.
Proof.
  induction s as [|x s IH]; intros st Hs H; simpl in H.
  - exists EmptyString, st. split; [constructor | done].
  - destruct (cset_mem fl c x) eqn:Hc.
    + apply orelse_some in H as [H|H].
      * exists EmptyString, st. split; [constructor | done].
      * apply IH in H as (u & st' & Hm & Hk); [|done].
        exists (String x u), st'. split; [|done]. by eapply M_lazy_cons.
    + exists EmptyString, st. split; [constructor | done].
Qed.

(** Every answer of the matcher is a match. *)
Lemma exec_sound {A} fl r :
  forall st (k : mstate -> option A) res,
    exec fl r st k = Some res ->
    exists u st', matches fl r st u st' /\ k st' = Some res.
Proof.
  induction r as [|c|a IHa b IHb|a IHa b IHb|a IHa|c|c|a IHa| |];
    intros st k res H; simpl in H.
  - exists EmptyString, st. split; [constructor | done].
  - destruct (m_rest st) as [|x s'] eqn:Hs; [done|].
    destruct (cset_mem fl c x) eqn:Hc; [|done].
    exists (String x EmptyString), (advance x s' st). split; [by constructor | done].
  - apply IHa in H as (u & st1 & Hu & H).
    apply IHb in H as (v & st2 & Hv & H).
    exists (u +:+ v), st2. split; [by econstructor | done].
  - apply orelse_some in H as [H|H].
    + apply IHa in H as (u & st' & Hu & H). exists u, st'. split; [by apply M_alt_l | done].
    + apply IHb in H as (u & st' & Hu & H). exists u, st'. split; [by apply M_alt_r | done].
  - apply orelse_some in H as [H|H].
    + apply IHa in H as (u & st' & Hu & H). exists u, st'. split; [by apply M_opt_some | done].
    + exists EmptyString, st. split; [apply M_opt_none | done].
  - by eapply star_greedy_sound.
  - by eapply star_lazy_sound.
  - apply IHa in H as (u & st' & Hu & H).
    exists u, (close_group st st'). split; [by constructor | done].
  - destruct (at_bol fl st) eqn:Hb; [|done].
    exists EmptyString, st. split; [by constructor | done].
  - destruct (at_eol fl st) eqn:Hb; [|done].
    exists EmptyString, st. split; [by constructor | done].
Qed.

(** A match reads a prefix of the remaining text. *)
Lemma matches_reads fl r st u st' :
  matches fl r st u st' ->
  m_rest st = u +:+ m_rest st' /\ m_pos st' = m_pos st + String.length u.
Proof.
  induction 1; simpl in *; app_step; try assumption; try (split; [done | lia]).
  - destruct IHmatches1 as [E1 P1], IHmatches2 as [E2 P2].
    rewrite str_app_assoc, str_length_app, <- E2. split; [done | lia].
  - destruct IHmatches as [E P]. rewrite <- E. split; [done | lia].
  - destruct IHmatches as [E P]. rewrite <- E. split; [done | lia].
Qed.

Lemma matches_group fl a st u st' :
  matches fl a st u st' -> m_group (close_group st st') = Some u.
Proof.
  intros H. apply matches_reads in H as [Hr Hp]. simpl. f_equal.
  rewrite Hr, Hp. replace (m_pos st + String.length u - m_pos st) with (String.length u) by lia.
  apply take_app.
Qed.

Lemma cset_within_spec fl P c x :
  cset_within fl P c = true -> cset_mem fl c x = true -> P x = true.
Proof.
  unfold cset_within. rewrite forallb_forall. intros H Hc.
  specialize (H x (all_chars_complete x)). by rewrite Hc in H.
Qed.

Lemma never_empty_spec fl r st u st' :
  matches fl r st u st' -> never_empty r = true -> u <> EmptyString.
Proof.
  induction 1; simpl; intros Hn; try done.
  - apply orb_true_iff in Hn. intros [Hu Hv]%str_app_eq_empty.
    destruct Hn as [Hn|Hn]; [by apply IHmatches1 | by apply IHmatches2].
  - apply andb_true_iff in Hn as [? ?]. auto.
  - apply andb_true_iff in Hn as [? ?]. auto.
  - auto.
Qed.

Lemma starts_within_spec fl P r st u st' x :
  matches fl r st u st' -> starts_within fl P r = true ->
  first_char u = Some x -> P x = true.
Proof.
  induction 1; simpl; intros Hs Hx; try done.
  - injection Hx as <-. by eapply cset_within_spec.
  - apply andb_true_iff in Hs as [Ha Hb].
    destruct u as [|y u'].
    + app_step. apply orb_true_iff in Hb as [Hb|Hb]; [|auto].
      by eapply never_empty_spec in Hb.
    + app_step. simpl in Hx. apply IHmatches1; auto.
  - apply andb_true_iff in Hs as [? ?]. auto.
  - apply andb_true_iff in Hs as [? ?]. auto.
  - auto.
  - injection Hx as <-. by eapply cset_within_spec.
  - injection Hx as <-. by eapply cset_within_spec.
  - auto.
Qed.

Lemma ends_within_spec fl P r st u st' x :
  matches fl r st u st' -> ends_within fl P r = true ->
  last_char u = Some x -> P x = true.
Proof.
  induction 1; simpl; intros Hs Hx; try done.
  - injection Hx as <-. by eapply cset_within_spec.
  - apply andb_true_iff in Hs as [Hb Ha].
    destruct (decide (v = EmptyString)) as [->|Hv].
    + rewrite str_app_empty_r in Hx. apply orb_true_iff in Ha as [Ha|Ha]; [|auto].
      by eapply never_empty_spec in Ha.
    + rewrite last_char_app in Hx by done. auto.
  - apply andb_true_iff in Hs as [? ?]. auto.
  - apply andb_true_iff in Hs as [? ?]. auto.
  - auto.
  - destruct v as [|y v'].
    + injection Hx as <-. by eapply cset_within_spec.
    + apply IHmatches; auto.
  - destruct v as [|y v'].
    + injection Hx as <-. by eapply cset_within_spec.
    + apply IHmatches; auto.
  - auto.
Qed.

(** A match of an expression that passes [reads_trimmed] is trimmed. *)
Lemma reads_trimmed_spec fl r st u st' :
  matches fl r st u st' -> reads_trimmed fl r = true -> trimmed u.
Proof.
  intros Hm H. unfold reads_trimmed in H.
  apply andb_true_iff in H as [H He]. apply andb_true_iff in H as [Hn Hs].
  pose proof (never_empty_spec _ _ _ _ _ Hm Hn) as Hu.
  assert (exists x, first_char u = Some x) as [x Hx] by (destruct u; [done | eauto]).
  assert (exists y, last_char u = Some y) as [y Hy].
  { clear -Hu. induction u as [|a u IH]; [done|].
    destruct u; [by exists a|]. destruct IH as [y Hy]; [done|]. by exists y. }
  split.
  - exists x. split; [done|].
    pose proof (starts_within_spec _ _ _ _ _ _ _ Hm Hs Hx) as HP.
    unfold not_space in HP. by destruct (Py.isspace x).
  - exists y. split; [done|].
    pose proof (ends_within_spec _ _ _ _ _ _ _ Hm He Hy) as HP.
    unfold not_space in HP. by destruct (Py.isspace y).
Qed.

(** An expression without a group leaves the captured text as it was. *)
Lemma no_group_keeps fl r st u st' :
  matches fl r st u st' -> has_group r = false -> m_group st' = m_group st.
Proof.
  induction 1; simpl; intros Hg; try done.
  - apply orb_false_iff in Hg as [? ?]. rewrite IHmatches2, IHmatches1; auto.
  - apply orb_false_iff in Hg as [? ?]. auto.
  - apply orb_false_iff in Hg as [? ?]. auto.
  - auto.
  - rewrite IHmatches; auto.
  - rewrite IHmatches; auto.
Qed.

(** After a match of an expression that passes [captures F], group 1 holds
    a text read by an expression that passes [F]. *)
Lemma captures_spec fl F r st u st' :
  matches fl r st u st' -> captures F r = true ->
  exists a st1 g st2,
    m_group st' = Some g /\ F a = true /\ matches fl a st1 g st2.
Proof.
  induction 1; simpl; intros Hc; try done.
  - apply orb_true_iff in Hc as [Hc|Hc]; [auto|].
    apply andb_true_iff in Hc as [Hc Hg]. apply negb_true_iff in Hg.
    destruct (IHmatches1 Hc) as (a0 & st1' & g & st2' & Hgr & HF & Hm).
    exists a0, st1', g, st2'. split; [|done].
    erewrite no_group_keeps; eauto.
  - apply andb_true_iff in Hc as [? ?]. auto.
  - apply andb_true_iff in Hc as [? ?]. auto.
  - exists a, st, u, st'. split; [by eapply matches_group | done].
Qed.

(** *** The scan *)

Lemma match_at_sound fl r prev pos s m :
  match_at fl r prev pos s = Some m ->
  exists st', matches fl r (start_state prev pos s) (group0 m) st'
              /\ group1 m = m_group st' /\ m_start m = pos.
Proof.
  unfold match_at. fold (start_state prev pos s).
  destruct (exec _ _ _ _) as [st'|] eqn:E; [|done]. intros [= <-]. simpl.
  apply exec_sound in E as (u & st'' & Hm & [= ->]).
  exists st'. split; [|done].
  destruct (matches_reads _ _ _ _ _ Hm) as [Hr Hp]. simpl in Hr, Hp.
  replace (Py.take (m_pos st' - pos) s) with u; [done|].
  rewrite Hp, Hr. replace (pos + String.length u - pos) with (String.length u) by lia.
  by rewrite take_app.
Qed.

Lemma scan_sound fl r m :
  forall s prev pos skip,
    In m (scan fl r prev pos s skip) ->
    exists prev' pos' s' st',
      matches fl r (start_state prev' pos' s') (group0 m) st'
      /\ group1 m = m_group st'.
Proof.
  induction s as [|x s IH]; intros prev pos skip Hin; simpl in Hin.
  - destruct skip; [|done].
    destruct (match_at fl r prev pos EmptyString) as [m'|] eqn:E; [|done].
    destruct Hin as [<-|[]].
    apply match_at_sound in E as (st' & ? & ? & _). eauto 6.
  - destruct skip; [|by eapply IH].
    destruct (match_at fl r prev pos (String x s)) as [m'|] eqn:E; [|by eapply IH].
    destruct Hin as [<-|Hin]; [|by eapply IH].
    apply match_at_sound in E as (st' & ? & ? & _). eauto 6.
Qed.

Lemma finditer_sound fl r text m :
  In m (finditer r text fl) ->
  exists prev pos s st',
    matches fl r (start_state prev pos s) (group0 m) st' /\ group1 m = m_group st'.
Proof. apply scan_sound. Qed.

(** Every match of an expression that passes [reads_trimmed] is a trimmed
    text. *)
Lemma finditer_trimmed fl r text m :
  reads_trimmed fl r = true -> In m (finditer r text fl) -> trimmed (group0 m).
Proof.
  intros Hr (prev & pos & s & st' & Hm & _)%finditer_sound.
  by eapply reads_trimmed_spec.
Qed.

(** Every match of an expression that passes [captures] goes through its
    group. *)
Lemma finditer_group_set fl r text m :
  captures (fun _ => true) r = true -> In m (finditer r text fl) ->
  exists g, group1 m = Some g.
Proof.
  intros Hc (prev & pos & s & st' & Hm & Hg)%finditer_sound.
  destruct (captures_spec _ _ _ _ _ _ Hm Hc) as (a & st1 & g & st2 & Hgr & _).
  exists g. congruence.
Qed.

(** Every match of an expression that passes [captures (reads_trimmed fl)]
    has a trimmed group 1. *)
Lemma finditer_group_trimmed fl r text m :
  captures (reads_trimmed fl) r = true -> In m (finditer r text fl) ->
  exists g, group1 m = Some g /\ trimmed g.
Proof.
  intros Hc (prev & pos & s & st' & Hm & Hg)%finditer_sound.
  destruct (captures_spec _ _ _ _ _ _ Hm Hc) as (a & st1 & g & st2 & Hgr & HF & Ha).
  exists g. split; [congruence|]. by eapply reads_trimmed_spec.
Qed.

(** In a scan that finds nothing, no position has a match. *)
Lemma scan_nil_no_match fl r :
  forall pre prev pos s,
    scan fl r prev pos (pre +:+ s) 0 = [] ->
    match_at fl r (last_of prev pre) (pos + String.length pre) s = None.
Proof.
  induction pre as [|x pre IH]; intros prev pos s H; app_step; simpl.
  - rewrite Nat.add_0_r. destruct s; simpl in H;
      by destruct (match_at fl r prev pos _).
  - simpl in H. destruct (match_at fl r prev pos _); [done|].
    apply IH in H. by rewrite <- Nat.add_succ_comm.
Qed.

End ReFacts.

(** ** Contact extraction *)

Module ContactFacts.
Import Re ReSpec Spec StrFacts ReFacts ResumeParser.

(** The cascade returns the first match of the first pattern that has
    one. *)
Lemma first_findall_first patterns text fl :
  forall i p,
    patterns !! i = Some p ->
    findall p text fl <> [] ->
    (forall j q, j < i -> patterns !! j = Some q -> findall q text fl = []) ->
    first_findall patterns text fl = head (findall p text fl).
Proof.
  induction patterns as [|p0 ps IH]; intros i p Hi Hne Hbefore; [done|].
  destruct i as [|i]; simpl in *.
  - injection Hi as ->. by destruct (findall p text fl).
  - rewrite (Hbefore 0 p0) by (done || lia).
    apply (IH i p Hi Hne). intros j q Hj Hq. apply (Hbefore (S j) q); [lia | done].
Qed.

Lemma first_findall_none patterns text fl :
  (forall p, p ∈ patterns -> findall p text fl = []) ->
  first_findall patterns text fl = None.
Proof.
  induction patterns as [|p0 ps IH]; intros H; [done|]. simpl.
  rewrite (H p0) by apply list_elem_of_here.
  apply IH. intros p Hp. apply H. by apply list_elem_of_further.
Qed.

Lemma first_findall_in patterns text fl m :
  first_findall patterns text fl = Some m ->
  exists p, p ∈ patterns /\ In m (findall p text fl).
Proof.
  induction patterns as [|p0 ps IH]; [done|]. simpl.
  destruct (findall p0 text fl) as [|m0 ms] eqn:E.
  - intros (p & Hp & Hm)%IH. exists p. split; [by apply list_elem_of_further | done].
  - intros [= ->]. exists p0. split; [apply list_elem_of_here|]. rewrite E. by left.
Qed.

(** What [findall] lists for a pattern without a group, and for one whose
    matches always set the group. *)
Lemma findall_whole_trimmed fl r text m :
  has_group r = false -> reads_trimmed fl r = true ->
  In m (findall r text fl) -> trimmed m.
Proof.
  intros Hg Hr. unfold findall. rewrite in_map_iff. intros (x & <- & Hx).
  unfold findall_item. rewrite Hg. by eapply finditer_trimmed.
Qed.

Lemma findall_group_trimmed fl r text m :
  has_group r = true -> captures (reads_trimmed fl) r = true ->
  In m (findall r text fl) -> trimmed m.
Proof.
  intros Hg Hr. unfold findall. rewrite in_map_iff. intros (x & <- & Hx).
  unfold findall_item. rewrite Hg.
  destruct (finditer_group_trimmed _ _ _ _ Hr Hx) as (g & -> & Hgt). done.
Qed.

(** A phone match begins with [+], [(] or a digit and ends with a digit; a
    name match begins and ends with a letter. *)
Lemma phone_match_trimmed p text m :
  p ∈ phone_patterns -> In m (findall p text no_flags) -> trimmed m.
Proof.
  intros Hp. apply findall_whole_trimmed; revert p Hp;
    apply Forall_forall; repeat constructor.
Qed.

Lemma name_match_trimmed p text m :
  p ∈ name_patterns -> In m (findall p text MULTILINE) -> trimmed m.
Proof.
  intros Hp. apply findall_group_trimmed; revert p Hp;
    apply Forall_forall; repeat constructor.
Qed.

(** No pattern of the repository can match the empty text, so the scan
    never has to step over an empty match. *)
Lemma patterns_never_match_empty :
  Forall (fun p => never_empty p = true)
    (email_pattern :: phone_patterns ++ name_patterns ++ Main.client_patterns).
Proof. repeat constructor. Qed.

Lemma finditer_nonempty fl r text m :
  never_empty r = true -> In m (finditer r text fl) -> group0 m <> EmptyString.
Proof.
  intros Hr (prev & pos & s & st' & Hm & _)%finditer_sound.
  by eapply never_empty_spec.
Qed.

Lemma clean_strip (v : string) : clean v = Py.strip v.
Proof. by destruct v. Qed.

Lemma clean_trimmed (v : string) : trimmed v -> clean v = v.
Proof. intros H. rewrite clean_strip. by apply strip_trimmed. Qed.

(** The phone number and the name in terms of the cascades. *)
Lemma phone_unfold w text :
  phone (extract_contact_info w text)
  = clean (default EmptyString (first_findall phone_patterns text no_flags)).
Proof. reflexivity. Qed.

Lemma name_unfold w text :
  name (extract_contact_info w text)
  = clean (let name0 := match first_findall name_patterns text MULTILINE with
                        | Some m => Py.strip m
                        | None => EmptyString
                        end in
           if negb (Py.truthy name0) then spacy_name w text else name0).
Proof. reflexivity. Qed.

Lemma phone_of_first_match w text m :
  first_findall phone_patterns text no_flags = Some m ->
  phone (extract_contact_info w text) = m.
Proof.
  intros H. rewrite phone_unfold, H. simpl.
  apply first_findall_in in H as (p & Hp & Hm).
  apply clean_trimmed. by eapply phone_match_trimmed.
Qed.

Lemma phone_of_no_match w text :
  first_findall phone_patterns text no_flags = None ->
  phone (extract_contact_info w text) = EmptyString.
Proof. intros H. by rewrite phone_unfold, H. Qed.

Lemma name_of_first_match w text m :
  first_findall name_patterns text MULTILINE = Some m ->
  name (extract_contact_info w text) = m.
Proof.
  intros H. rewrite name_unfold, H.
  apply first_findall_in in H as (p & Hp & Hm).
  pose proof (name_match_trimmed _ _ _ Hp Hm) as Ht.
  cbv zeta. rewrite (strip_trimmed _ Ht), (trimmed_truthy _ Ht). simpl.
  by apply clean_trimmed.
Qed.

Lemma name_of_no_match w text :
  first_findall name_patterns text MULTILINE = None ->
  name (extract_contact_info w text) = Py.strip (spacy_name w text).
Proof. intros H. rewrite name_unfold, H. simpl. apply clean_strip. Qed.

Lemma first_person_spec before ent after :
  Forall (fun e => ~ full_person e) before -> full_person ent ->
  first_person (before ++ ent :: after) = Some (ent_text ent).
Proof.
  intros Hb [Hl Hn]. induction Hb as [|e es He _ IH]; cbn [first_person app].
  - by rewrite Hl, String.eqb_refl, (proj2 (Nat.leb_le _ _) Hn).
  - destruct (String.eqb_spec (ent_label e) "PERSON") as [El|El]; [|done].
    destruct (Nat.leb_spec 2 (length (Py.split (ent_text e)))) as [En|En]; [|done].
    exfalso. by apply He.
Qed.

Lemma first_person_none es :
  Forall (fun e => ~ full_person e) es -> first_person es = None.
Proof.
  induction 1 as [|e es He _ IH]; [done|]. cbn [first_person].
  destruct (String.eqb_spec (ent_label e) "PERSON") as [El|El]; [|done].
  destruct (Nat.leb_spec 2 (length (Py.split (ent_text e)))) as [En|En]; [|done].
  exfalso. by apply He.
Qed.

(** The North-American pattern matches at the start of
    ["(555) 123-4567"], whatever comes before and after. *)
Lemma north_american_example prev pos post :
  match_at no_flags phone_north_american prev pos ("(555) 123-4567" +:+ post) <> None.
Proof. vm_compute. done. Qed.

Lemma findall_north_american_example pre post :
  findall phone_north_american (pre +:+ "(555) 123-4567" +:+ post) no_flags <> [].
Proof.
  unfold findall, finditer. intros H. apply map_eq_nil in H.
  apply scan_nil_no_match in H. by apply north_american_example in H.
Qed.

End ContactFacts.

(** ** The batch loop and the final sort *)

Module BatchFacts.
Import Spec Main.

Lemma Qle_bool_false (x y : Q) : Qle_bool x y = false -> (y <= x)%Q.
Proof.
  intros H. destruct (Qlt_le_dec y x) as [Hlt|Hle].
  - by apply Qlt_le_weak.
  - apply Qle_bool_iff in Hle. congruence.
Qed.

Section Sorting.
Context {A : Type} (key : A -> Q).

Lemma insert_desc_perm (x : A) (l : list A) :
  Permutation (insert_desc key x l) (x :: l).
Proof.
  induction l as [|y l IH]; simpl; [done|].
  destruct (Qle_bool (key y) (key x)); [done|].
  rewrite IH. apply perm_swap.
Qed.

Lemma sorted_desc_perm (l : list A) : Permutation (sorted_desc key l) l.
Proof.
  induction l as [|x l IH]; simpl; [done|].
  rewrite insert_desc_perm. by constructor.
Qed.

Lemma insert_desc_ranked (x : A) (l : list A) :
  ranked key l -> ranked key (insert_desc key x l).
Proof.
  unfold ranked. induction 1 as [|y l Hl IH Hy]; simpl.
  - repeat constructor.
  - destruct (Qle_bool (key y) (key x)) eqn:E.
    + apply Qle_bool_iff in E. constructor; [by constructor|].
      constructor; [done|].
      eapply Forall_impl; [exact Hy|]. intros z Hz. simpl in Hz. by eapply Qle_trans.
    + apply Qle_bool_false in E. constructor; [done|].
      rewrite insert_desc_perm. by constructor.
Qed.

Lemma sorted_desc_ranked (l : list A) : ranked key (sorted_desc key l).
Proof.
  induction l as [|x l IH]; simpl; [constructor|]. by apply insert_desc_ranked.
Qed.

Lemma sorted_desc_length (l : list A) : length (sorted_desc key l) = length l.
Proof. apply Permutation_length, sorted_desc_perm. Qed.

End Sorting.

Section Loop.
Context {A : Type} (w : World) (body : string -> string -> result (option A)).

Lemma step_spec root acc filename :
  step body root acc filename =
  {| results := results acc
       ++ omap (entry_of body) (map (pair root) (List.filter is_resume_file [filename]));
     printed := printed acc
       ++ omap (report_of body) (map (pair root) (List.filter is_resume_file [filename])) |}.
Proof.
  unfold step. simpl. destruct (is_resume_file filename); simpl.
  - unfold entry_of, report_of. simpl.
    destruct (body root filename) as [[r|]|e]; simpl; rewrite ?app_nil_r; by destruct acc.
  - rewrite !app_nil_r. by destruct acc.
Qed.

Lemma files_loop_spec root files : forall acc,
  fold_left (step body root) files acc =
  {| results := results acc
       ++ omap (entry_of body) (map (pair root) (List.filter is_resume_file files));
     printed := printed acc
       ++ omap (report_of body) (map (pair root) (List.filter is_resume_file files)) |}.
Proof.
  induction files as [|f files IH]; intros acc; simpl.
  - rewrite !app_nil_r. by destruct acc.
  - rewrite IH, step_spec. simpl.
    destruct (is_resume_file f); simpl; rewrite ?app_nil_r; [|done].
    unfold entry_of at 1 3, report_of at 1 3. simpl.
    destruct (body root f) as [[r|]|e]; simpl; rewrite ?app_nil_r, <- ?app_assoc; done.
Qed.

Lemma dirs_loop_spec dirs : forall acc,
  fold_left (fun acc '(root, files) => fold_left (step body root) files acc) dirs acc =
  {| results := results acc
       ++ omap (entry_of body)
            (flat_map (fun '(root, files) =>
               map (pair root) (List.filter is_resume_file files)) dirs);
     printed := printed acc
       ++ omap (report_of body)
            (flat_map (fun '(root, files) =>
               map (pair root) (List.filter is_resume_file files)) dirs) |}.
Proof.
  induction dirs as [|[root files] dirs IH]; intros acc; simpl.
  - rewrite !app_nil_r. by destruct acc.
  - rewrite IH, files_loop_spec. simpl. by rewrite !omap_app, !app_assoc.
Qed.

(** The loop in one line: the entries of the files that succeed and the
    reports of the files that raise, both in the order of the walk. *)
Lemma walk_loop_spec resumes_folder :
  results (walk_loop w body resumes_folder)
    = omap (entry_of body) (resume_files w resumes_folder)
  /\ printed (walk_loop w body resumes_folder)
    = omap (report_of body) (resume_files w resumes_folder).
Proof. unfold walk_loop. rewrite dirs_loop_spec. done. Qed.

End Loop.

End BatchFacts.

(** ** Client extraction *)

Module ClientFacts.
Import Re ReSpec Spec ReFacts Main.

Lemma keep_client_spec (c : string) :
  keep_client c = true <-> 2 < String.length c /\ Py.lower c ∉ generic_names.
Proof.
  unfold keep_client. rewrite andb_true_iff, Nat.ltb_lt, negb_true_iff, bool_decide_eq_false.
  done.
Qed.

Lemma add_clients_spec (ms : list rmatch) : forall clients,
  Forall (fun m => exists g, group1 m = Some g) ms ->
  exists clients',
    add_clients clients ms = Ok clients' /\
    forall c, c ∈ clients' <->
      c ∈ clients \/
      exists m g, In m ms /\ group1 m = Some g /\ c = Py.strip g /\ keep_client c = true.
Proof.
  induction ms as [|m ms IH]; intros clients Hms; simpl.
  - exists clients. split; [done|]. intros c. split; [auto|]. by intros [?|(? & ? & [] & _)].
  - apply Forall_cons in Hms as [[g Hg] Hms]. unfold add_client at 1. rewrite Hg. simpl.
    destruct (IH (if keep_client (Py.strip g) then clients ∪ {[Py.strip g]} else clients) Hms)
      as (clients' & -> & Hspec).
    exists clients'. split; [done|]. intros c. rewrite Hspec. split.
    + intros [Hc|(m' & g' & Hin & Hg' & Hc & Hk)].
      * destruct (keep_client (Py.strip g)) eqn:Hk; [|by left].
        apply elem_of_union in Hc as [Hc|Hc]; [by left|].
        apply elem_of_singleton in Hc as ->. right. exists m, g. auto.
      * right. exists m', g'. auto.
    + intros [Hc|(m' & g' & [<-|Hin] & Hg' & Hc & Hk)].
      * left. destruct (keep_client (Py.strip g)); [|done]. apply elem_of_union. by left.
      * left. assert (g' = g) as -> by congruence. subst c. rewrite Hk.
        apply elem_of_union. right. by apply elem_of_singleton.
      * right. exists m', g'. auto.
Qed.

Lemma client_loop_spec (patterns : list regex) (text : string) : forall clients,
  Forall (fun p => captures (fun _ => true) p = true) patterns ->
  exists clients',
    client_loop clients patterns text = Ok clients' /\
    forall c, c ∈ clients' <->
      c ∈ clients \/
      exists p m g, p ∈ patterns /\ In m (finditer p text IGNORECASE)
                    /\ group1 m = Some g /\ c = Py.strip g /\ keep_client c = true.
Proof.
  induction patterns as [|p ps IH]; intros clients Hps; simpl.
  - exists clients. split; [done|]. intros c. split; [auto|].
    intros [?|(? & ? & ? & Hin & _)]; [done|]. by apply elem_of_nil in Hin.
  - apply Forall_cons in Hps as [Hp Hps].
    destruct (add_clients_spec (finditer p text IGNORECASE) clients) as (c1 & -> & H1).
    { apply Forall_forall. intros m Hm%list_elem_of_In. by eapply finditer_group_set. }
    simpl. destruct (IH c1 Hps) as (c2 & -> & H2).
    exists c2. split; [done|]. intros c. rewrite H2, H1. split.
    + intros [[Hc|(m & g & Hm & Hg & Hc & Hk)]|(q & m & g & Hq & Hm & Hg & Hc & Hk)].
      * by left.
      * right. exists p, m, g. split; [apply list_elem_of_here | auto].
      * right. exists q, m, g. split; [by apply list_elem_of_further | auto].
    + intros [Hc|(q & m & g & Hq & Hm & Hg & Hc & Hk)]; [by do 2 left|].
      apply elem_of_cons in Hq as [->|Hq].
      * left. right. exists m, g. auto.
      * right. exists q, m, g. auto.
Qed.

Lemma client_patterns_capture :
  Forall (fun p => captures (fun _ => true) p = true) client_patterns.
Proof. repeat constructor. Qed.

(** The set built from a text. *)
Lemma clients_of_text (text : string) :
  exists clients,
    client_loop ∅ client_patterns text = Ok clients /\
    forall c, c ∈ clients <-> client_capture text c.
Proof.
  destruct (client_loop_spec client_patterns text ∅ client_patterns_capture)
    as (clients & H & Hspec).
  exists clients. split; [done|]. intros c. rewrite Hspec. unfold client_capture. split.
  - intros [Hc|(p & m & g & Hp & Hm & Hg & Hc & Hk)]; [by apply not_elem_of_empty in Hc|].
    apply keep_client_spec in Hk as [? ?]. exists p, m, g. auto 7.
  - intros (p & m & g & Hp & Hm & Hg & Hc & Hl & Hn). right. exists p, m, g.
    repeat split; try done. by apply keep_client_spec.
Qed.

End ClientFacts.

(** ** The skill filter *)

Module SkillFacts.
Import Spec Main BatchFacts.

Lemma encode_spec {E} (model : string -> result E) (texts : list string) (vs : list E) :
  model_encode model texts = Ok vs <-> Forall2 (fun s v => model s = Ok v) texts vs.
Proof.
  unfold model_encode. revert vs. induction texts as [|t ts IH]; intros vs; simpl.
  - split; [by intros [= <-]; constructor | by inversion 1].
  - destruct (model t) as [v|e] eqn:Ev; simpl.
    + destruct (mapM model ts) as [vs'|e] eqn:Em; simpl; unfold mret, result_ret.
      * split.
        -- intros [= <-]. constructor; [done | by apply IH].
        -- inversion 1 as [|? v0 ? vs0 Hv Hvs]; subst.
           apply IH in Hvs. congruence.
      * split; [done|]. inversion 1 as [|? v0 ? vs0 Hv Hvs]; subst.
        apply IH in Hvs. congruence.
    + split; [done|]. inversion 1; congruence.
Qed.

Lemma fold_max_spec (xs : list Q) : forall x,
  let m := fold_left (fun m y => if Qle_bool y m then m else y) xs x in
  In m (x :: xs) /\ (x <= m)%Q /\ Forall (fun y => (y <= m)%Q) xs.
Proof.
  induction xs as [|y xs IH]; intros x; simpl.
  - split; [by left|]. split; [apply Qle_refl | constructor].
  - specialize (IH (if Qle_bool y x then x else y)). simpl in IH.
    destruct IH as (Hin & Hle & Hall).
    destruct (Qle_bool y x) eqn:E.
    + apply Qle_bool_iff in E. split; [destruct Hin; auto|].
      split; [done|]. constructor; [by eapply Qle_trans | done].
    + apply Qle_bool_false in E. split; [destruct Hin; auto|].
      split; [by eapply Qle_trans|]. by constructor.
Qed.

Lemma py_max_spec (xs : list Q) (m : Q) : py_max xs = Ok m -> is_max m xs.
Proof.
  destruct xs as [|x xs]; [done|]. intros [= <-].
  destruct (fold_max_spec xs x) as (Hin & Hle & Hall). split; [done | by constructor].
Qed.

Lemma py_max_raises (xs : list Q) e : py_max xs = Raise e -> xs = [].
Proof. by destruct xs. Qed.

(** The loop over the skills. *)
Lemma skill_loop_spec (w : World) (pse : list (embedding w)) (thr : Q) :
  forall (sk : list (string * embedding w)) matched scores,
    skill_loop w sk pse thr = Ok (matched, scores) ->
    exists bests,
      Forall2 (fun sv best => is_max best (similarities w sv.2 pse)) sk bests
      /\ matched = map fst (List.filter (fun sb => Qle_bool thr sb.2) (zip (map fst sk) bests))
      /\ scores = List.filter (Qle_bool thr) bests.
Proof.
  induction sk as [|[s v] sk IH]; intros matched scores H; simpl in H.
  - injection H as <- <-. exists []. by repeat constructor.
  - destruct (py_max (similarities w v pse)) as [best|e] eqn:Eb; [|done]. simpl in H.
    destruct (skill_loop w sk pse thr) as [[m' s']|e] eqn:El; [|done]. simpl in H.
    destruct (IH m' s' eq_refl) as (bests & Hb & -> & ->).
    exists (best :: bests). split; [constructor; [by apply py_max_spec | done]|].
    simpl. destruct (Qle_bool thr best); by injection H as <- <-.
Qed.

Lemma skill_loop_raises (w : World) (pse : list (embedding w)) (thr : Q) :
  forall (sk : list (string * embedding w)) e,
    skill_loop w sk pse thr = Raise e -> pse = [].
Proof.
  induction sk as [|[s v] sk IH]; intros e H; simpl in H; [done|].
  destruct (py_max (similarities w v pse)) as [best|e'] eqn:Eb.
  - simpl in H. destruct (skill_loop w sk pse thr) as [[m' s']|e''] eqn:El.
    + simpl in H. by destruct (Qle_bool thr best).
    + by eapply IH.
  - apply py_max_raises in Eb. unfold similarities in Eb. by destruct pse.
Qed.

Lemma zip_fst_snd {A B} (l : list A) (k : list B) :
  length l = length k -> map fst (zip l k) = l /\ map snd (zip l k) = k.
Proof.
  revert k. induction l as [|a l IH]; intros [|b k] Hlen; simpl in *; try done.
  destruct (IH k) as [-> ->]; [lia | done].
Qed.

Lemma Forall2_zip_r {A B C} (P : B -> C -> Prop) (l : list A) (k : list B) (cs : list C) :
  length l = length k ->
  Forall2 (fun ab c => P ab.2 c) (zip l k) cs -> Forall2 P k cs.
Proof.
  revert k cs. induction l as [|a l IH]; intros [|b k] cs Hlen H; simpl in *; try done.
  - inversion H. constructor.
  - inversion H; subst. constructor; [done|]. apply IH; [lia | done].
Qed.

Lemma filter_zip_snd {A} (f : Q -> bool) (l : list A) (bests : list Q) :
  length l = length bests ->
  length (List.filter (fun sb => f sb.2) (zip l bests)) = length (List.filter f bests).
Proof.
  revert bests. induction l as [|a l IH]; intros [|b bests] Hlen; simpl in *; try done.
  destruct (f b); simpl; rewrite IH; lia.
Qed.

(** The mean the code computes is the arithmetic mean. *)
Lemma py_sum_total (xs : list Q) : (py_sum xs == total xs)%Q.
Proof.
  unfold py_sum, total.
  assert (forall a, fold_left Qplus xs a == a + foldr Qplus 0 xs)%Q as H.
  { induction xs as [|x xs IH]; intros a; simpl.
    - by rewrite Qplus_0_r.
    - rewrite IH. by rewrite Qplus_assoc. }
  rewrite H. apply Qplus_0_l.
Qed.

Lemma mean_spec (xs : list Q) : xs <> [] -> is_mean (mean xs) xs.
Proof.
  intros Hne. split; [done|]. unfold mean. rewrite py_sum_total.
  rewrite Qmult_comm. apply Qmult_div_r.
  destruct xs as [|x xs]; [done|]. simpl length.
  intros H. unfold Qeq, inject_Z in H. simpl in H. lia.
Qed.

End SkillFacts.

(** ** One file of the skill filter *)

Module FilterFacts.
Import Spec Main BatchFacts SkillFacts ClientFacts.


Lemma Forall2_length_eq {A B} (P : A -> B -> Prop) l k :
  Forall2 P l k -> length l = length k.
Proof. induction 1; simpl; auto. Qed.

#[local] Opaque client_loop.

Section OneFile.
Context (w : World) (nlp : string -> result Doc)
  (model : string -> result (embedding w)) (skills : list string)
  (skill_vecs : list (embedding w)) (thr : Q) (root filename : string).
Hypothesis Hskills : Forall2 (fun s v => model s = Ok v) skills skill_vecs.

(** What the loop over the skills yields for the skills paired with their
    vectors. *)
Lemma skill_loop_zip pse matched scores :
  skill_loop w (zip skills skill_vecs) pse thr = Ok (matched, scores) ->
  exists bests,
    Forall2 (fun v best => is_max best (map (cosine w v) pse)) skill_vecs bests
    /\ matched = map fst (List.filter (fun sb => Qle_bool thr sb.2) (zip skills bests))
    /\ scores = List.filter (Qle_bool thr) bests
    /\ length matched = length scores.
Proof.
  intros (bests & Hb & Hm & Hs)%skill_loop_spec.
  pose proof (Forall2_length_eq _ _ _ Hskills) as Hlen.
  destruct (zip_fst_snd skills skill_vecs Hlen) as [Hf _]. rewrite Hf in Hm.
  apply (Forall2_zip_r (fun v best => is_max best (map (cosine w v) pse))) in Hb; [|done].
  exists bests. repeat split; try done.
  rewrite Hm, Hs, length_map. apply filter_zip_snd.
  rewrite Hlen. by eapply Forall2_length_eq.
Qed.

Lemma filter_one_some e :
  filter_one w nlp model skills skill_vecs thr root filename = Ok (Some e) ->
  exists text ci doc,
    ResumeParser.extract_resume_data w (path_join root filename) = Ok (text, ci)
    /\ nlp text = Ok doc
    /\ skill_entry_spec w model skills thr (potential_skills doc) e
    /\ sr_name e = name_or_filename ci filename
    /\ sr_filename e = filename
    /\ sr_path e = path_join root filename.
Proof.
  unfold filter_one.
  destruct (ResumeParser.extract_resume_data w (path_join root filename))
    as [[text ci]|err] eqn:Ex; [|done]. simpl.
  destruct (nlp text) as [doc|err] eqn:En; [|done]. simpl.
  unfold extract_client_information. simpl.
  destruct (client_loop ∅ client_patterns text) as [cs|err]; [|done]. simpl.
  destruct (potential_skills doc) as [|c cands] eqn:Ec; [done|].
  destruct (model_encode model (c :: cands)) as [pse|err] eqn:Ee; [|done]. simpl.
  destruct (skill_loop w (zip skills skill_vecs) pse thr) as [[matched scores]|err] eqn:El;
    [|done]. simpl.
  destruct matched as [|m ms] eqn:Em; [done|]. intros [= <-].
  exists text, ci, doc. repeat split; try done. simpl.
  apply encode_spec in Ee.
  destruct (skill_loop_zip _ _ _ El) as (bests & Hb & Hm & Hs & Hlen).
  exists pse, skill_vecs, bests.
  split; [by rewrite Ec|]. split; [by rewrite Ec|]. split; [done|]. split; [done|].
  split; [done|]. split; [done|]. simpl.
  rewrite <- Hs. apply mean_spec. intros ->. done.
Qed.


End OneFile.

End FilterFacts.

(** ** File names *)

Module NameFacts.
Import StrFacts Main.

Lemma rfind1_app_none c (s t : string) :
  rfind1 c t = 0 -> rfind1 c (s +:+ t) = rfind1 c s.
Proof.
  intros Ht. induction s as [|x s IH]; app_step; simpl; [done|]. by rewrite IH.
Qed.

Lemma rfind1_app_some c (s t : string) k :
  rfind1 c t = S k -> rfind1 c (s +:+ t) = String.length s + S k.
Proof.
  intros Ht. induction s as [|x s IH]; app_step; simpl; [done|].
  by rewrite IH, Nat.add_succ_r.
Qed.

Lemma drop_app (a b : string) : drop (String.length a) (a +:+ b) = b.
Proof. induction a as [|x a IH]; app_step; simpl; [by destruct b | done]. Qed.

(** A file name made of a stem, a dot and an extension splits there. *)
Lemma splitext_stem (stem ext : string) :
  rfind1 "/" stem = 0 -> rfind1 "/" ext = 0 -> rfind1 "." ext = 0 ->
  all_dots stem = false ->
  splitext (stem +:+ String "." ext) = (stem, String "." ext).
Proof.
  intros Hs1 Hs2 Hd Hne. unfold splitext.
  assert (rfind1 "/" (String "." ext) = 0) as Hs by (simpl; by rewrite Hs2).
  assert (rfind1 "." (String "." ext) = 1) as Hdot by (simpl; by rewrite Hd).
  rewrite (rfind1_app_none _ _ _ Hs), Hs1, (rfind1_app_some _ _ _ _ Hdot).
  replace (String.length stem + 1 - 1 - 0) with (String.length stem) by lia.
  replace (String.length stem + 1 - 1) with (String.length stem) by lia.
  change (drop 0 ?s) with s.
  rewrite take_app, drop_app, Hne.
  replace (0 <? String.length stem + 1) with true by (symmetry; apply Nat.ltb_lt; lia).
  done.
Qed.

Lemma replace_char_nonempty a b s :
  s <> EmptyString -> Py.replace_char a b s <> EmptyString.
Proof. by destruct s. Qed.

Lemma splitext_root_nonempty (p : string) :
  p <> EmptyString -> (splitext p).1 <> EmptyString.
Proof.
  intros Hp. unfold splitext.
  destruct (_ && _) eqn:E; [|done]. simpl.
  apply andb_true_iff in E as [Hlt Hd]. apply negb_true_iff in Hd.
  destruct (rfind1 "." p - 1) as [|k] eqn:Ek.
  - simpl in Hd. done.
  - by destruct p.
Qed.

Lemma name_from_file_nonempty (filename : string) :
  filename <> EmptyString -> name_from_file filename <> EmptyString.
Proof.
  intros H. unfold name_from_file.
  by do 2 apply replace_char_nonempty; apply splitext_root_nonempty.
Qed.

Lemma resume_file_nonempty (filename : string) :
  is_resume_file filename = true -> filename <> EmptyString.
Proof. by intros H ->. Qed.

Lemma name_or_filename_nonempty ci filename :
  filename <> EmptyString -> name_or_filename ci filename <> EmptyString.
Proof.
  intros H. unfold name_or_filename.
  destruct (ResumeParser.name ci) eqn:E; simpl; [by apply name_from_file_nonempty | done].
Qed.

Lemma resume_files_spec w folder root filename :
  (root, filename) ∈ Spec.resume_files w folder -> is_resume_file filename = true.
Proof.
  unfold Spec.resume_files. rewrite list_elem_of_In, in_flat_map.
  intros ([r files] & _ & Hin). apply in_map_iff in Hin as (f & [= <- <-] & Hf).
  by apply filter_In in Hf as [_ ?].
Qed.

End NameFacts.

(** ** The document extractors *)

Module ExtractorFacts.
Import ResumeParser.

(** A failure of pdfplumber leaves [extract_resume_data] as it is. *)
Lemma resume_pdf_error_passes_through (w : World) (file_path : string) (e : exn) :
  Py.endswith ".pdf" (Py.lower file_path) = true ->
  pdf_open w (Str file_path) = Raise e ->
  extract_resume_data w file_path = Raise e.
Proof.
  intros Hext Hopen. unfold extract_resume_data, read_resume_text, pdf_text.
  by rewrite Hext, Hopen.
Qed.

(** The same failure leaves [extract_job_description] as a [ValueError]
    that names the PDF stage. *)
Lemma job_pdf_error_is_labelled (w : World) (s : string) (e : exn) :
  path_exists w s = true ->
  Py.endswith ".txt" (Py.lower s) = false ->
  Py.endswith ".docx" (Py.lower s) = false ->
  pdf_open w (Str s) = Raise e ->
  JobParser.extract_job_description w (Str s)
  = Raise (ValueError ("Error extracting text from PDF: " +:+ exn_str e)).
Proof.
  intros Hex Htxt Hdocx Hopen.
  unfold JobParser.extract_job_description, JobParser.read_as_pdf, pdf_text.
  by rewrite Hex, Htxt, Hdocx, Hopen.
Qed.

(** A failure of python-docx is labelled by both modules. *)
Lemma resume_docx_error_is_labelled (w : World) (file_path : string) (e : exn) :
  Py.endswith ".pdf" (Py.lower file_path) = false ->
  Py.endswith ".docx" (Py.lower file_path) = true ->
  docx_paragraphs w file_path = Raise e ->
  extract_resume_data w file_path
  = Raise (ValueError ("Error extracting text from Word document: " +:+ exn_str e)).
Proof.
  intros Hpdf Hdocx Hopen.
  unfold extract_resume_data, read_resume_text, extract_text_from_docx.
  by rewrite Hpdf, Hdocx, Hopen.
Qed.

(** Any other extension is refused by name. *)
Lemma resume_unsupported_format (w : World) (file_path : string) :
  Py.endswith ".pdf" (Py.lower file_path) = false ->
  Py.endswith ".docx" (Py.lower file_path) = false ->
  extract_resume_data w file_path
  = Raise (ValueError ("Unsupported file format: " +:+ file_path)).
Proof.
  intros Hpdf Hdocx. unfold extract_resume_data, read_resume_text.
  by rewrite Hpdf, Hdocx.
Qed.

End ExtractorFacts.

(** ** The properties of the pipeline *)

Import Re Spec Main.
Import ResumeParser (ContactInfo, name, email, phone, extract_contact_info,
  extract_resume_data, read_resume_text, phone_patterns, name_patterns,
  phone_north_american, phone_five_five, phone_grouped, name_capitalized_line,
  name_all_caps_line, name_labelled, name_own_line).

Lemma extract_resume_data_ok (w : World) (file_path text : string) :
  read_resume_text w file_path = Ok text ->
  extract_resume_data w file_path = Ok (text, extract_contact_info w text).
Proof. unfold extract_resume_data. by intros ->. Qed.

Lemma extract_resume_data_inv (w : World) (file_path text : string) ci :
  extract_resume_data w file_path = Ok (text, ci) ->
  read_resume_text w file_path = Ok text /\ ci = extract_contact_info w text.
Proof.
  unfold extract_resume_data. destruct (read_resume_text w file_path); [|done].
  simpl. by intros [= <- <-].
Qed.

(** What [filter_resumes_by_skills] is when it returns. *)
Lemma filter_resumes_by_skills_ok (w : World) folder skills thr b :
  filter_resumes_by_skills w folder skills thr = Ok b ->
  exists nlp model skill_vecs,
    get_nlp_model w = Ok nlp /\ SentenceTransformer w = Ok model
    /\ Forall2 (fun s v => model s = Ok v) skills skill_vecs
    /\ b = {| results := sorted_desc match_score
                (results (walk_loop w (filter_one w nlp model skills skill_vecs thr) folder));
              printed := printed (walk_loop w (filter_one w nlp model skills skill_vecs thr) folder) |}.
Proof.
  unfold filter_resumes_by_skills, get_sentence_transformer.
  destruct (get_nlp_model w) as [nlp|]; [|done]. simpl.
  destruct (SentenceTransformer w) as [model|]; [|done]. simpl.
  destruct (model_encode model skills) as [skill_vecs|] eqn:E; [|done]. simpl.
  intros [= <-]. exists nlp, model, skill_vecs. repeat split; try done.
  by apply SkillFacts.encode_spec.
Qed.

(** What [match_resumes] is when it returns. *)
Lemma match_resumes_ok (w : World) jd folder b :
  match_resumes w jd folder = Ok b ->
  exists nlp model job_desc job_vec,
    get_nlp_model w = Ok nlp /\ SentenceTransformer w = Ok model
    /\ JobParser.extract_job_description w jd = Ok job_desc
    /\ model job_desc = Ok job_vec
    /\ b = {| results := sorted_desc score
                (results (walk_loop w (match_one w model job_vec) folder));
              printed := printed (walk_loop w (match_one w model job_vec) folder) |}.
Proof.
  unfold match_resumes, get_sentence_transformer.
  destruct (get_nlp_model w) as [nlp|]; [|done]. simpl.
  destruct (SentenceTransformer w) as [model|]; [|done]. simpl.
  destruct (JobParser.extract_job_description w jd) as [job_desc|]; [|done]. simpl.
  unfold encode_one, model_encode. simpl.
  destruct (model job_desc) as [job_vec|] eqn:E; [|done]. simpl.
  intros [= <-]. by exists nlp, model, job_desc, job_vec.
Qed.

Lemma in_omap_entry {A} (body : string -> string -> result (option A)) files r :
  In r (omap (entry_of body) files) <->
  exists root filename, (root, filename) ∈ files /\ body root filename = Ok (Some r).
Proof.
  rewrite <- list_elem_of_In, list_elem_of_omap. split.
  - intros ([root filename] & Hin & He). exists root, filename. split; [done|].
    unfold entry_of in He. simpl in He.
    by destruct (body root filename) as [[?|]|]; simplify_eq.
  - intros (root & filename & Hin & Hb). exists (root, filename). split; [done|].
    unfold entry_of. simpl. by rewrite Hb.
Qed.



(** C2: the list [match_resumes] returns is sorted by [score], largest
    first, and the list [filter_resumes_by_skills] returns is sorted by
    [match_score], largest first. *)
Theorem batch_results_are_ranked (w : World) :
  (forall job_description_path resumes_folder b,
     match_resumes w job_description_path resumes_folder = Ok b ->
     ranked score (results b))
  /\ (forall resumes_folder skills min_threshold b,
     filter_resumes_by_skills w resumes_folder skills min_threshold = Ok b ->
     ranked match_score (results b)).
Proof.
  split.
  - intros jd folder b (nlp & model & jdesc & jv & _ & _ & _ & _ & ->)%match_resumes_ok.
    apply BatchFacts.sorted_desc_ranked.
  - intros folder skills thr b (nlp & model & sv & _ & _ & _ & ->)%filter_resumes_by_skills_ok.
    apply BatchFacts.sorted_desc_ranked.
Qed.

Lemma batch_results_are_ranked_witness :
  (exists b, match_resumes Demo.world (Str "engineer") "cv" = Ok b
             /\ map score (results b) = [(3 # 4)%Q; 0%Q]
             /\ ranked score (results b))
  /\ (exists b, filter_resumes_by_skills Demo.world "cv" ["Python"; "curriculum vitae"] (1 # 2)%Q
                = Ok b
             /\ map match_score (results b) = [1%Q; (3 # 4)%Q]
             /\ ranked match_score (results b)).
Proof.
  split.
  - eexists. split; [vm_compute; reflexivity|]. split; [reflexivity|].
    exact (proj1 (batch_results_are_ranked Demo.world) (Str "engineer") "cv" _ eq_refl).
  - eexists. split; [vm_compute; reflexivity|]. split; [reflexivity|].
    exact (proj2 (batch_results_are_ranked Demo.world) "cv" ["Python"; "curriculum vitae"]
             (1 # 2)%Q _ eq_refl).
Defined.

(** C3: phone extraction tries the North-American pattern, then the 5+5/6
    digit pattern, then the 2-4 digit grouping, and returns the first match
    of the first pattern that matches anything, a match of that one pattern
    alone; a text that contains ["(555) 123-4567"] gets the first match of
    the North-American pattern, whatever else it contains. *)
Theorem phone_first_pattern_wins (w : World) (text : string) :
  let ci := extract_contact_info w text in
  phone_patterns = [phone_north_american; phone_five_five; phone_grouped]
  /\ (forall i p,
        phone_patterns !! i = Some p ->
        findall p text no_flags <> [] ->
        (forall j q, j < i -> phone_patterns !! j = Some q -> findall q text no_flags = []) ->
        head (findall p text no_flags) = Some (phone ci))
  /\ ((forall p, p ∈ phone_patterns -> findall p text no_flags = []) ->
        phone ci = EmptyString)
  /\ (forall pre post,
        text = pre +:+ "(555) 123-4567" +:+ post ->
        findall phone_north_american text no_flags <> []
        /\ head (findall phone_north_american text no_flags) = Some (phone ci))
  /\ (forall file_path,
        read_resume_text w file_path = Ok text ->
        extract_resume_data w file_path = Ok (text, ci)).
Proof.
  intros ci. split; [done|].
  assert (forall i p,
    phone_patterns !! i = Some p -> findall p text no_flags <> [] ->
    (forall j q, j < i -> phone_patterns !! j = Some q -> findall q text no_flags = []) ->
    head (findall p text no_flags) = Some (phone ci)) as Hfirst.
  { intros i p Hi Hne Hbefore.
    pose proof (ContactFacts.first_findall_first _ _ _ i p Hi Hne Hbefore) as Hf.
    destruct (findall p text no_flags) as [|m ms] eqn:E; [done|]. simpl in *.
    f_equal. symmetry. exact (ContactFacts.phone_of_first_match w text m Hf). }
  split; [exact Hfirst|]. split; [|split].
  - intros Hnone.
    exact (ContactFacts.phone_of_no_match w text
             (ContactFacts.first_findall_none _ _ _ Hnone)).
  - intros pre post ->.
    pose proof (ContactFacts.findall_north_american_example pre post) as Hne.
    split; [done|]. apply (Hfirst 0); [done | done | intros; lia].
  - intros file_path H. exact (extract_resume_data_ok w file_path text H).
Qed.

Lemma phone_first_pattern_wins_witness :
  phone (extract_contact_info Demo.world Demo.jane_text) = "(555) 123-4567"
  /\ findall phone_grouped Demo.jane_text no_flags <> []
  /\ phone (extract_contact_info Demo.world Demo.intl_first_text) = "(555) 123-4567"
  /\ findall phone_five_five Demo.intl_first_text no_flags = ["+91 98765 43210"].
Proof.
  assert (phone (extract_contact_info Demo.world Demo.intl_first_text) = "(555) 123-4567"
          /\ findall phone_five_five Demo.intl_first_text no_flags = ["+91 98765 43210"])
    as Hintl.
  { destruct (phone_first_pattern_wins Demo.world Demo.intl_first_text)
      as (_ & _ & _ & H & _).
    destruct (H "+91 98765 43210 and " EmptyString eq_refl) as [_ Hp].
    split; [|vm_compute; reflexivity].
    assert (Some (phone (extract_contact_info Demo.world Demo.intl_first_text))
            = Some "(555) 123-4567") as E by (rewrite <- Hp; vm_compute; reflexivity).
    exact (f_equal (default EmptyString) E). }
  destruct Hintl as [Hi1 Hi2].
  split; [|split; [|split; [exact Hi1 | exact Hi2]]]; [|vm_compute; discriminate].
  destruct (phone_first_pattern_wins Demo.world Demo.jane_text) as (_ & _ & _ & H & _).
  destruct (H ("Jane Doe" +:+ String LF ("jane.doe@example.com" +:+ String LF EmptyString))
              (" or +91 98765 43210" +:+ String LF
               ("Client: Acme Corp" +:+ String LF
               ("Client:customer" +:+ String LF
                "5 years of experience with Python frameworks"))) eq_refl) as [_ Hp].
  assert (Some (phone (extract_contact_info Demo.world Demo.jane_text))
          = Some "(555) 123-4567") as E by (rewrite <- Hp; vm_compute; reflexivity).
  exact (f_equal (default EmptyString) E).
Defined.

(** C4: name extraction tries the four name patterns in order and uses the
    first match of the first one that matches; when none matches, it takes
    the first PERSON entity with at least two whitespace-separated parts
    among the entities found in the first 1000 characters; when there is
    none, or spaCy raises, the name is empty; and the extraction returns
    whenever the text could be read. *)
Theorem name_cascade_then_entities (w : World) (text : string) :
  let ci := extract_contact_info w text in
  name_patterns
    = [name_capitalized_line; name_all_caps_line; name_labelled; name_own_line]
  /\ (forall i p,
        name_patterns !! i = Some p ->
        findall p text MULTILINE <> [] ->
        (forall j q, j < i -> name_patterns !! j = Some q -> findall q text MULTILINE = []) ->
        head (findall p text MULTILINE) = Some (name ci))
  /\ ((forall p, p ∈ name_patterns -> findall p text MULTILINE = []) ->
        (forall nlp doc before ent after,
            spacy_load w = Ok nlp -> nlp (Py.take 1000 text) = Ok doc ->
            ents doc = before ++ ent :: after ->
            Forall (fun e => ~ full_person e) before -> full_person ent ->
            name ci = Py.strip (ent_text ent)
            /\ (ReSpec.trimmed (ent_text ent) -> name ci = ent_text ent))
        /\ (forall nlp doc,
            spacy_load w = Ok nlp -> nlp (Py.take 1000 text) = Ok doc ->
            Forall (fun e => ~ full_person e) (ents doc) ->
            name ci = EmptyString)
        /\ (forall nlp e,
            spacy_load w = Ok nlp -> nlp (Py.take 1000 text) = Raise e ->
            name ci = EmptyString)
        /\ (forall e, spacy_load w = Raise e -> name ci = EmptyString))
  /\ (forall file_path,
        read_resume_text w file_path = Ok text ->
        extract_resume_data w file_path = Ok (text, ci)).
Proof.
  intros ci. split; [done|]. split; [|split].
  - intros i p Hi Hne Hbefore.
    pose proof (ContactFacts.first_findall_first _ _ _ i p Hi Hne Hbefore) as Hf.
    destruct (findall p text MULTILINE) as [|m ms] eqn:E; [done|]. simpl in *.
    f_equal. symmetry. exact (ContactFacts.name_of_first_match w text m Hf).
  - intros Hnone%ContactFacts.first_findall_none.
    pose proof (ContactFacts.name_of_no_match w text Hnone) as Hname.
    fold ci in Hname. rewrite Hname. unfold ResumeParser.spacy_name.
    split; [|split; [|split]].
    + intros nlp doc before ent after -> -> -> Hb He.
      rewrite (ContactFacts.first_person_spec _ _ _ Hb He). simpl.
      split; [done|]. apply StrFacts.strip_trimmed.
    + intros nlp doc -> -> Hall. by rewrite (ContactFacts.first_person_none _ Hall).
    + by intros nlp e -> ->.
    + by intros e ->.
  - intros file_path H. exact (extract_resume_data_ok w file_path text H).
Qed.

Lemma name_cascade_then_entities_witness :
  name (extract_contact_info Demo.world Demo.maria_text) = "Maria Lopez"
  /\ name (extract_contact_info Demo.world_without_spacy Demo.maria_text) = EmptyString
  /\ name (extract_contact_info Demo.world Demo.jane_text) = "Jane Doe".
Proof.
  split; [|split].
  - destruct (name_cascade_then_entities Demo.world Demo.maria_text) as (_ & _ & H & _).
    assert (forall p, p ∈ name_patterns -> findall p Demo.maria_text MULTILINE = []) as Hn.
    { apply Forall_forall. repeat constructor. }
    destruct (H Hn) as (Hent & _).
    destruct (Hent Demo.parse _
                [ {| ent_text := "Acme Corp"; ent_label := "ORG" |};
                  {| ent_text := "Maria"; ent_label := "PERSON" |} ]
                {| ent_text := "Maria Lopez"; ent_label := "PERSON" |} []
                eq_refl eq_refl eq_refl) as [Hname _].
    + repeat constructor; intros [Hl Hs]; vm_compute in Hl, Hs; [discriminate | lia].
    + split; [reflexivity | vm_compute; lia].
    + exact Hname.
  - destruct (name_cascade_then_entities Demo.world_without_spacy Demo.maria_text)
      as (_ & _ & H & _).
    assert (forall p, p ∈ name_patterns -> findall p Demo.maria_text MULTILINE = []) as Hn.
    { apply Forall_forall. repeat constructor. }
    destruct (H Hn) as (_ & _ & _ & Hraise). exact (Hraise _ eq_refl).
  - destruct (name_cascade_then_entities Demo.world Demo.jane_text) as (_ & H & _).
    assert (findall name_capitalized_line Demo.jane_text MULTILINE <> []) as Hne
      by (vm_compute; discriminate).
    specialize (H 0 name_capitalized_line eq_refl Hne).
    assert (head (findall name_capitalized_line Demo.jane_text MULTILINE)
            = Some (name (extract_contact_info Demo.world Demo.jane_text))) as Hh
      by (apply H; intros; lia).
    assert (Some (name (extract_contact_info Demo.world Demo.jane_text))
            = Some "Jane Doe") as E by (rewrite <- Hh; vm_compute; reflexivity).
    exact (f_equal (default EmptyString) E).
Defined.



(** C6: for a string that is not the path of an existing file,
    [extract_job_description] returns the string itself. *)
Theorem literal_job_description_is_returned (w : World) (s : string) :
  path_exists w s = false ->
  JobParser.extract_job_description w (Str s) = Ok s.
Proof. intros H. unfold JobParser.extract_job_description. by rewrite H. Qed.

Lemma literal_job_description_is_returned_witness :
  JobParser.extract_job_description Demo.world (Str "Python developer, 5 years")
  = Ok "Python developer, 5 years".
Proof.
  apply (literal_job_description_is_returned Demo.world "Python developer, 5 years").
  vm_compute. reflexivity.
Defined.





(** C8, as the code has it: in both batch operations an exception raised
    while one resume file is processed is caught there; the file adds no
    entry, one line with its path is printed, and the loop goes on, so the
    entries are those of the files that succeed and the reports those of
    the files that raise.  A folder with one corrupt and one valid resume
    gives exactly one entry in [match_resumes]; in
    [filter_resumes_by_skills] it gives one entry when a skill matches the
    valid resume and none otherwise. *)
Theorem one_bad_file_does_not_stop_the_batch (w : World) :
  (forall job_description_path resumes_folder b,
     match_resumes w job_description_path resumes_folder = Ok b ->
     exists model job_vec,
       let body := match_one w model job_vec in
       Permutation (results b) (omap (entry_of body) (resume_files w resumes_folder))
       /\ printed b = omap (report_of body) (resume_files w resumes_folder)
       /\ (forall root filename, body root filename <> Ok None)
       /\ (forall bad good e r,
             resume_files w resumes_folder = [bad; good]
             \/ resume_files w resumes_folder = [good; bad] ->
             body bad.1 bad.2 = Raise e ->
             body good.1 good.2 = Ok (Some r) ->
             results b = [r]
             /\ printed b = [error_line (path_join bad.1 bad.2) e]))
  /\ (forall resumes_folder skills min_threshold b,
     filter_resumes_by_skills w resumes_folder skills min_threshold = Ok b ->
     exists nlp model skill_vecs,
       let body := filter_one w nlp model skills skill_vecs min_threshold in
       Permutation (results b) (omap (entry_of body) (resume_files w resumes_folder))
       /\ printed b = omap (report_of body) (resume_files w resumes_folder)
       /\ (forall bad good e,
             resume_files w resumes_folder = [bad; good]
             \/ resume_files w resumes_folder = [good; bad] ->
             body bad.1 bad.2 = Raise e ->
             (forall r, body good.1 good.2 = Ok (Some r) ->
                results b = [r]
                /\ printed b = [error_line (path_join bad.1 bad.2) e])
             /\ (body good.1 good.2 = Ok None ->
                results b = []
                /\ printed b = [error_line (path_join bad.1 bad.2) e]))).
Proof.
  split.
  - intros jd folder b (nlp & model & jdesc & jv & _ & _ & _ & _ & ->)%match_resumes_ok.
    exists model, jv. intros body. simpl.
    destruct (BatchFacts.walk_loop_spec w body folder) as [Hr Hp]. fold body.
    split; [rewrite <- Hr; apply BatchFacts.sorted_desc_perm|]. split; [done|]. split.
    + intros root filename. unfold body, match_one.
      destruct (extract_resume_data w _) as [[text ci]|]; [|done]. simpl.
      by destruct (encode_one model text).
    + intros [r1 f1] [r2 f2] e r Hfiles Hbad Hgood. simpl in *.
      rewrite Hr, Hp.
      destruct Hfiles as [-> | ->]; simpl; unfold entry_of, report_of; simpl;
        by rewrite Hbad, Hgood.
  - intros folder skills thr b
      (nlp & model & sv & _ & _ & _ & ->)%filter_resumes_by_skills_ok.
    exists nlp, model, sv. intros body. simpl.
    destruct (BatchFacts.walk_loop_spec w body folder) as [Hr Hp]. fold body.
    split; [rewrite <- Hr; apply BatchFacts.sorted_desc_perm|]. split; [done|].
    intros [r1 f1] [r2 f2] e Hfiles Hbad. simpl in *. rewrite Hr, Hp. split.
    + intros r Hgood.
      destruct Hfiles as [-> | ->]; simpl; unfold entry_of, report_of; simpl;
        by rewrite Hbad, Hgood.
    + intros Hgood.
      destruct Hfiles as [-> | ->]; simpl; unfold entry_of, report_of; simpl;
        by rewrite Hbad, Hgood.
Qed.

Lemma one_bad_file_does_not_stop_the_batch_witness :
  (exists b, match_resumes Demo.world (Str "engineer") "pair" = Ok b
             /\ map mr_filename (results b) = ["jane.pdf"]
             /\ exists model job_vec,
                  printed b
                  = omap (report_of (match_one Demo.world model job_vec))
                      (resume_files Demo.world "pair"))
  /\ (exists b, filter_resumes_by_skills Demo.world "pair" ["Python"] (1 # 2)%Q = Ok b
             /\ map sr_filename (results b) = ["jane.pdf"]
             /\ exists nlp model skill_vecs,
                  printed b
                  = omap (report_of (filter_one Demo.world nlp model ["Python"] skill_vecs
                                       (1 # 2)%Q))
                      (resume_files Demo.world "pair")).
Proof.
  split.
  - eexists. split; [vm_compute; reflexivity|]. split; [reflexivity|].
    destruct (proj1 (one_bad_file_does_not_stop_the_batch Demo.world)
                (Str "engineer") "pair" _ eq_refl) as (model & jv & _ & Hp & _).
    exists model, jv. exact Hp.
  - eexists. split; [vm_compute; reflexivity|]. split; [reflexivity|].
    destruct (proj2 (one_bad_file_does_not_stop_the_batch Demo.world)
                "pair" ["Python"] (1 # 2)%Q _ eq_refl) as (nlp & model & sv & _ & Hp & _).
    exists nlp, model, sv. exact Hp.
Defined.

(** C8, as it is stated, fails for [filter_resumes_by_skills]: the folder
    [pair] holds one resume that cannot be read and one that is read and
    parsed without error, and with a skill that the good resume does not
    match the result has no entry at all. *)
Lemma valid_resume_without_matching_skill_has_no_entry :
  resume_files Demo.world "pair" = [("pair", "broken.pdf"); ("pair", "jane.pdf")]
  /\ extract_resume_data Demo.world "pair/broken.pdf" = Raise (OtherError "Unexpected EOF")
  /\ (exists ci, extract_resume_data Demo.world "pair/jane.pdf" = Ok (Demo.jane_text, ci))
  /\ filter_one Demo.world Demo.parse (fun text => Ok text) ["Cobol"] ["Cobol"] (1 # 2)%Q
       "pair" "jane.pdf" = Ok None
  /\ filter_resumes_by_skills Demo.world "pair" ["Cobol"] (1 # 2)%Q
     = Ok {| results := [];
             printed := ["Error processing pair/broken.pdf: Unexpected EOF"] |}.
Proof.
  split; [vm_compute; reflexivity|]. split; [vm_compute; reflexivity|].
  split; [eexists; vm_compute; reflexivity|].
  split; vm_compute; reflexivity.
Qed.

(** C9: the code at the failing input.  pdfplumber cannot open
    [pair/broken.pdf]; [extract_resume_data] lets the library's exception
    through as it is, with nothing that names the format, where
    [extract_job_description] wraps the same failure of the same file in
    "Error extracting text from PDF: ...". *)
Theorem resume_pdf_failure_is_not_labelled :
  pdf_open Demo.world (Str "pair/broken.pdf") = Raise (OtherError "Unexpected EOF")
  /\ extract_resume_data Demo.world "pair/broken.pdf" = Raise (OtherError "Unexpected EOF")
  /\ JobParser.extract_job_description Demo.world (Str "pair/broken.pdf")
     = Raise (ValueError "Error extracting text from PDF: Unexpected EOF").
Proof. split; [|split]; vm_compute; reflexivity. Qed.

(** C10: every entry of [match_resumes] and of [filter_resumes_by_skills]
    has a name that is not empty: the name found in the resume or, when
    that is empty, the file name without its extension, with underscores
    and hyphens turned into spaces. *)
Theorem entries_have_names (w : World) :
  (forall job_description_path resumes_folder b r,
     match_resumes w job_description_path resumes_folder = Ok b ->
     In r (results b) ->
     mr_name r <> EmptyString
     /\ exists text ci,
          extract_resume_data w (mr_path r) = Ok (text, ci)
          /\ mr_name r = (if Py.truthy (name ci) then name ci
                          else name_from_file (mr_filename r)))
  /\ (forall resumes_folder skills min_threshold b r,
     filter_resumes_by_skills w resumes_folder skills min_threshold = Ok b ->
     In r (results b) ->
     sr_name r <> EmptyString
     /\ exists text ci,
          extract_resume_data w (sr_path r) = Ok (text, ci)
          /\ sr_name r = (if Py.truthy (name ci) then name ci
                          else name_from_file (sr_filename r)))
  /\ (forall stem ext,
     rfind1 "/" stem = 0 -> rfind1 "/" ext = 0 -> rfind1 "." ext = 0 ->
     all_dots stem = false ->
     name_from_file (stem +:+ String "." ext)
     = Py.replace_char "-" " " (Py.replace_char "_" " " stem)).
Proof.
  split; [|split].
  - intros jd folder b r (nlp & model & jdesc & jv & _ & _ & _ & _ & ->)%match_resumes_ok.
    simpl. intros Hin. apply (Permutation_in _ (BatchFacts.sorted_desc_perm _ _)) in Hin.
    destruct (BatchFacts.walk_loop_spec w (match_one w model jv) folder) as [Hr _].
    rewrite Hr in Hin. apply in_omap_entry in Hin as (root & filename & Hf & Hb).
    apply NameFacts.resume_files_spec, NameFacts.resume_file_nonempty in Hf.
    unfold match_one in Hb.
    destruct (extract_resume_data w (path_join root filename)) as [[text ci]|] eqn:Ex;
      [|done]. simpl in Hb.
    destruct (encode_one model text); [|done]. simpl in Hb. injection Hb as <-. simpl.
    split; [by apply NameFacts.name_or_filename_nonempty|].
    exists text, ci. split; [done|]. unfold name_or_filename.
    by destruct (Py.truthy (name ci)).
  - intros folder skills thr b r
      (nlp & model & sv & _ & _ & Hs & ->)%filter_resumes_by_skills_ok.
    simpl. intros Hin. apply (Permutation_in _ (BatchFacts.sorted_desc_perm _ _)) in Hin.
    destruct (BatchFacts.walk_loop_spec w (filter_one w nlp model skills sv thr) folder)
      as [Hr _].
    rewrite Hr in Hin. apply in_omap_entry in Hin as (root & filename & Hf & Hb).
    apply NameFacts.resume_files_spec, NameFacts.resume_file_nonempty in Hf.
    apply (FilterFacts.filter_one_some _ _ _ _ _ _ _ _ Hs) in Hb
      as (text & ci & doc & Hx & _ & _ & Hname & Hfile & Hpath).
    rewrite Hname, Hfile, Hpath.
    split; [by apply NameFacts.name_or_filename_nonempty|].
    exists text, ci. split; [done|]. unfold name_or_filename.
    by destruct (Py.truthy (name ci)).
  - intros stem ext H1 H2 H3 H4. unfold name_from_file.
    by rewrite NameFacts.splitext_stem.
Qed.

Lemma entries_have_names_witness :
  (exists b, match_resumes Demo.world (Str "engineer") "cv" = Ok b
             /\ Forall (fun r => mr_name r <> EmptyString) (results b))
  /\ name_from_file "john_q-public.pdf" = "john q public".
Proof.
  split.
  - eexists. split; [vm_compute; reflexivity|].
    apply Forall_forall. intros r Hr.
    apply (proj1 (entries_have_names Demo.world) (Str "engineer") "cv" _ r eq_refl).
    apply list_elem_of_In. exact Hr.
  - apply (proj2 (proj2 (entries_have_names Demo.world)) "john_q-public" "pdf");
      reflexivity.
Defined.

(** ** What the checks on an expression say about its matches *)

Module CheckFacts.
Import Re ReSpec Spec StrFacts ReFacts ReChecks.

Lemma all_in_app P (a b : string) :
  all_in P (a +:+ b) = all_in P a && all_in P b.
Proof.
  induction a as [|x a IH]; app_step; simpl; [done|]. by rewrite IH, andb_assoc.
Qed.

Lemma count_in_app P (a b : string) :
  count_in P (a +:+ b) = count_in P a + count_in P b.
Proof. induction a as [|x a IH]; app_step; simpl; [done|]. rewrite IH. lia. Qed.

Lemma word_level_app (a b : string) l :
  word_level l (a +:+ b) = word_level (word_level l a) b.
Proof. revert l. induction a as [|x a IH]; intros l; app_step; simpl; [done|]. apply IH. Qed.

Lemma word_step_bounds l x : l <= 3 -> l <= word_step l x <= 3.
Proof.
  intros Hl. unfold word_step.
  destruct l as [|[|[|l]]]; destruct (Py.isspace x); lia.
Qed.

Lemma word_step_mono l l' x : l <= l' -> l' <= 3 -> word_step l x <= word_step l' x.
Proof.
  intros Hle Hl'. unfold word_step.
  destruct l as [|[|[|l]]], l' as [|[|[|l']]]; destruct (Py.isspace x); lia.
Qed.

Lemma word_level_bounds (s : string) : forall l, l <= 3 -> l <= word_level l s <= 3.
Proof.
  induction s as [|x s IH]; intros l Hl; simpl; [lia|].
  pose proof (word_step_bounds l x Hl). specialize (IH (word_step l x)). lia.
Qed.

Lemma word_level_mono (s : string) : forall l l',
  l <= l' -> l' <= 3 -> word_level l s <= word_level l' s.
Proof.
  induction s as [|x s IH]; intros l l' Hle Hl'; simpl; [done|].
  apply IH; [by apply word_step_mono | by apply word_step_bounds].
Qed.

Lemma reads_only_spec fl P r st u st' :
  matches fl r st u st' -> reads_only fl P r = true -> all_in P u = true.
Proof.
  induction 1; simpl; intros Hr; try done.
  - by rewrite (cset_within_spec _ _ _ _ Hr H0).
  - apply andb_true_iff in Hr as [Ha Hb]. by rewrite all_in_app, IHmatches1, IHmatches2.
  - apply andb_true_iff in Hr as [Ha Hb]. auto.
  - apply andb_true_iff in Hr as [Ha Hb]. auto.
  - auto.
  - by rewrite (cset_within_spec _ _ _ _ Hr H0), IHmatches.
  - by rewrite (cset_within_spec _ _ _ _ Hr H0), IHmatches.
  - auto.
Qed.

Lemma reads_at_least_spec fl P r st u st' :
  matches fl r st u st' -> reads_at_least fl P r <= count_in P u.
Proof.
  induction 1; simpl; try lia.
  - destruct (cset_within fl P c) eqn:E; [|lia].
    rewrite (cset_within_spec _ _ _ _ E H0). lia.
  - rewrite count_in_app. lia.
Qed.

Lemma reaches_le fl r l : l <= 3 -> l <= reaches fl r l <= 3.
Proof.
  revert l. induction r as [|c|a IHa b IHb|a IHa b IHb|a IHa|c|c|a IHa| |];
    intros l Hl; simpl; try lia.
  - destruct (cset_within fl not_space c); [destruct l as [|[|[|l]]]; lia|].
    destruct (cset_within fl Py.isspace c); [destruct l as [|[|[|l]]]; lia | lia].
  - specialize (IHa l Hl). specialize (IHb (reaches fl a l)). lia.
  - specialize (IHa l Hl). specialize (IHb l Hl). lia.
  - auto.
Qed.

Lemma reaches_spec fl r st u st' :
  matches fl r st u st' -> forall l, l <= 3 -> reaches fl r l <= word_level l u.
Proof.
  induction 1; intros l Hl; simpl; try lia;
    try (pose proof (word_level_bounds v (word_step l x) (proj2 (word_step_bounds l x Hl)));
         pose proof (word_step_bounds l x Hl); lia).
  - destruct (cset_within fl not_space c) eqn:En.
    + pose proof (cset_within_spec _ _ _ _ En H0) as Hx. unfold not_space in Hx.
      apply negb_true_iff in Hx. unfold word_step. rewrite Hx.
      destruct l as [|[|[|l]]]; lia.
    + destruct (cset_within fl Py.isspace c) eqn:Es.
      * pose proof (cset_within_spec _ _ _ _ Es H0) as Hx. unfold word_step. rewrite Hx.
        destruct l as [|[|[|l]]]; lia.
      * pose proof (word_step_bounds l x Hl). lia.
  - rewrite word_level_app.
    pose proof (IHmatches1 l Hl) as H1.
    pose proof (reaches_le fl a l Hl) as Ha.
    pose proof (IHmatches2 (reaches fl a l) (proj2 Ha)) as H2.
    pose proof (word_level_bounds u l Hl) as Hu.
    pose proof (word_level_mono v _ _ H1 (proj2 Hu)). lia.
  - pose proof (IHmatches l Hl). lia.
  - pose proof (IHmatches l Hl). lia.
  - pose proof (word_level_bounds u l Hl). lia.
  - auto.
Qed.

(** *** Words *)

Lemma split_go_length (s : string) : forall cur,
  length (Py.split_go cur s) = count_words (Py.truthy cur) s.
Proof.
  induction s as [|x s IH]; intros cur; simpl.
  - by destruct cur.
  - destruct (Py.isspace x).
    + destruct cur; simpl; by rewrite IH.
    + by rewrite IH.
Qed.

Lemma split_length (s : string) : length (Py.split s) = count_words false s.
Proof. apply split_go_length. Qed.

Lemma count_words_true_pos (s : string) : 1 <= count_words true s.
Proof. induction s as [|x s IH]; simpl; [lia|]. destruct (Py.isspace x); lia. Qed.

Lemma word_level_words (s : string) :
  (word_level 0 s = 3 -> 2 <= count_words false s)
  /\ (word_level 1 s = 3 -> 2 <= count_words true s)
  /\ (word_level 2 s = 3 -> 1 <= count_words false s).
Proof.
  induction s as [|x s (IH0 & IH1 & IH2)]; simpl; [lia|].
  destruct (Py.isspace x); simpl; repeat split; intros H; auto.
  - specialize (IH2 H). lia.
  - apply count_words_true_pos.
Qed.

Lemma two_words (s : string) : word_level 0 s = 3 -> 2 <= length (Py.split s).
Proof. rewrite split_length. apply word_level_words. Qed.

(** *** [strip] *)

Lemma lstrip_shape (s : string) :
  Py.lstrip s = EmptyString
  \/ exists x t, Py.lstrip s = String x t /\ Py.isspace x = false.
Proof.
  induction s as [|x s IH]; simpl; [by left|].
  destruct (Py.isspace x) eqn:E; [done|]. right. by exists x, s.
Qed.

Lemma rstrip_idempotent (s : string) : Py.rstrip (Py.rstrip s) = Py.rstrip s.
Proof.
  induction s as [|x s IH]; simpl; [done|].
  destruct (Py.rstrip s) as [|y t] eqn:E.
  - destruct (Py.isspace x) eqn:Ex; simpl; [done | by rewrite Ex].
  - change (Py.rstrip (String x (String y t))) with
      (match Py.rstrip (String y t) with
       | EmptyString => if Py.isspace x then EmptyString else String x EmptyString
       | t' => String x t'
       end).
    by rewrite IH.
Qed.

Lemma rstrip_head (x : ascii) (t : string) :
  Py.isspace x = false -> exists t', Py.rstrip (String x t) = String x t'.
Proof.
  intros Hx. simpl. destruct (Py.rstrip t); rewrite ?Hx; eauto.
Qed.

Lemma strip_idempotent (s : string) : Py.strip (Py.strip s) = Py.strip s.
Proof.
  unfold Py.strip. destruct (lstrip_shape s) as [->|(x & t & -> & Hx)]; [done|].
  destruct (rstrip_head x t Hx) as (t' & Ht). rewrite Ht. simpl Py.lstrip. rewrite Hx.
  rewrite <- Ht. apply rstrip_idempotent.
Qed.

Lemma all_in_lstrip P (s : string) : all_in P s = true -> all_in P (Py.lstrip s) = true.
Proof.
  induction s as [|x s IH]; simpl; [done|]. intros [Hx Hs]%andb_true_iff.
  destruct (Py.isspace x); [auto|]. simpl. by rewrite Hx, Hs.
Qed.

Lemma all_in_rstrip P (s : string) : all_in P s = true -> all_in P (Py.rstrip s) = true.
Proof.
  induction s as [|x s IH]; simpl; [done|]. intros [Hx Hs]%andb_true_iff.
  specialize (IH Hs). destruct (Py.rstrip s).
  - destruct (Py.isspace x); simpl; [done | by rewrite Hx].
  - simpl in *. by rewrite Hx, IH.
Qed.

Lemma all_in_strip P (s : string) : all_in P s = true -> all_in P (Py.strip s) = true.
Proof. intros H. by apply all_in_rstrip, all_in_lstrip. Qed.

Lemma count_words_lstrip (s : string) :
  count_words false (Py.lstrip s) = count_words false s.
Proof.
  induction s as [|x s IH]; simpl; [done|]. destruct (Py.isspace x) eqn:E; [done|].
  simpl. by rewrite E.
Qed.

Lemma count_words_rstrip (s : string) : forall inw,
  count_words inw (Py.rstrip s) = count_words inw s.
Proof.
  induction s as [|x s IH]; intros inw; simpl; [done|].
  destruct (Py.rstrip s) as [|y t] eqn:E.
  - destruct (Py.isspace x) eqn:Ex; simpl; rewrite ?Ex, <- IH; simpl; [lia | done].
  - change (count_words inw (String x (String y t))) with
      (if Py.isspace x then (if inw then 1 else 0) + count_words false (String y t)
       else count_words true (String y t)).
    by rewrite !IH.
Qed.

Lemma split_strip_length (s : string) :
  length (Py.split (Py.strip s)) = length (Py.split s).
Proof.
  rewrite !split_length. unfold Py.strip.
  by rewrite count_words_rstrip, count_words_lstrip.
Qed.

(** *** What [findall] lists *)

Lemma findall_whole fl r text m :
  has_group r = false -> In m (findall r text fl) ->
  exists st u st', matches fl r st u st' /\ m = u.
Proof.
  intros Hg. unfold findall. rewrite in_map_iff. intros (x & <- & Hx).
  unfold findall_item. rewrite Hg.
  apply finditer_sound in Hx as (prev & pos & s & st' & Hm & _). eauto.
Qed.

Lemma findall_group fl F r text m :
  has_group r = true -> captures F r = true -> In m (findall r text fl) ->
  exists a st u st', F a = true /\ matches fl a st u st' /\ m = u.
Proof.
  intros Hg Hc. unfold findall. rewrite in_map_iff. intros (x & <- & Hx).
  unfold findall_item. rewrite Hg.
  apply finditer_sound in Hx as (prev & pos & s & st' & Hm & Hgr).
  destruct (captures_spec _ _ _ _ _ _ Hm Hc) as (a & st1 & g & st2 & Hg1 & HF & Ha).
  exists a, st1, g, st2. rewrite Hgr, Hg1. done.
Qed.

End CheckFacts.

(** ** More about the contact fields *)

Module ContactShape.
Import Re ReSpec Spec StrFacts ReFacts ReChecks CheckFacts ContactFacts ResumeParser.

Lemma email_unfold w text :
  email (extract_contact_info w text)
  = clean (default EmptyString (head (findall email_pattern text no_flags))).
Proof.
  change (email (extract_contact_info w text))
    with (clean match findall email_pattern text no_flags with
                | m :: _ => m
                | [] => EmptyString
                end).
  by destruct (findall email_pattern text no_flags).
Qed.

Lemma email_match_trimmed text m :
  In m (findall email_pattern text no_flags) -> trimmed m.
Proof. by apply findall_whole_trimmed. Qed.

Lemma first_person_two_parts es t :
  first_person es = Some t -> 2 <= length (Py.split t).
Proof.
  induction es as [|e es IH]; [done|]. cbn [first_person].
  destruct (String.eqb (ent_label e) "PERSON"); [|exact IH]. cbn [andb].
  destruct (Nat.leb_spec 2 (length (Py.split (ent_text e)))) as [Hn|Hn]; [|exact IH].
  by intros [= <-].
Qed.

Lemma name_patterns_reach_two_words :
  Forall (fun p => has_group p = true
                   /\ captures (fun a => reaches MULTILINE a 0 =? 3) p = true)
    name_patterns.
Proof. repeat constructor. Qed.

Lemma name_match_two_parts p text m :
  p ∈ name_patterns -> In m (findall p text MULTILINE) -> 2 <= length (Py.split m).
Proof.
  intros Hp Hm.
  destruct (proj1 (Forall_forall _ _) name_patterns_reach_two_words p Hp) as [Hg Hc].
  destruct (findall_group _ _ _ _ _ Hg Hc Hm) as (a & st & u & st' & HF & Ha & ->).
  apply Nat.eqb_eq in HF. apply two_words.
  pose proof (reaches_spec _ _ _ _ _ Ha 0 ltac:(lia)) as Hle.
  pose proof (word_level_bounds u 0 ltac:(lia)). lia.
Qed.

Lemma phone_patterns_shape :
  Forall (fun p => has_group p = false
                   /\ reads_only no_flags phone_char p = true
                   /\ 8 <= reads_at_least no_flags Py.isdigit p)
    phone_patterns.
Proof. repeat constructor. Qed.

End ContactShape.

Import Re Spec Main.
Import ReChecks.
Import ResumeParser (ContactInfo, name, email, phone, extract_contact_info,
  extract_resume_data, read_resume_text, phone_patterns, name_patterns, email_pattern).

(** X1: the three contact fields come back trimmed: [strip] leaves each of
    them as it is. *)
Theorem contact_fields_are_trimmed (w : World) (text : string) :
  let ci := extract_contact_info w text in
  Py.strip (name ci) = name ci
  /\ Py.strip (email ci) = email ci
  /\ Py.strip (phone ci) = phone ci.
Proof.
  intros ci. subst ci.
  rewrite ContactFacts.name_unfold, ContactFacts.phone_unfold, ContactShape.email_unfold.
  rewrite !ContactFacts.clean_strip. by rewrite !CheckFacts.strip_idempotent.
Qed.

(** X2: the e-mail field is the first match of the e-mail pattern in the
    text, or empty when there is none; a non-empty one holds an [@] and
    only word characters, [.], [+], [-] and [@], so no white space. *)
Theorem email_is_first_match (w : World) (text : string) :
  let e := email (extract_contact_info w text) in
  e = default EmptyString (head (findall email_pattern text no_flags))
  /\ (e = EmptyString
      \/ (all_in email_char e = true /\ 1 <= count_in is_at e
          /\ all_in ReSpec.not_space e = true)).
Proof.
  intros e. subst e. rewrite ContactShape.email_unfold.
  destruct (findall email_pattern text no_flags) as [|m ms] eqn:E; simpl; [by split; [|left]|].
  assert (In m (findall email_pattern text no_flags)) as Hin by (rewrite E; by left).
  rewrite (ContactFacts.clean_trimmed _ (ContactShape.email_match_trimmed _ _ Hin)).
  split; [done|]. right.
  destruct (CheckFacts.findall_whole no_flags email_pattern text m eq_refl Hin)
    as (st & u & st' & Hm & ->).
  split; [by eapply CheckFacts.reads_only_spec|]. split.
  - by apply (CheckFacts.reads_at_least_spec _ is_at) in Hm.
  - by eapply CheckFacts.reads_only_spec.
Qed.

(** X3: a non-empty phone field holds at least eight digits and, besides
    digits, only white space and the characters [+ ( ) - .]. *)
Theorem phone_has_digits (w : World) (text : string) :
  let p := phone (extract_contact_info w text) in
  p = EmptyString
  \/ (all_in phone_char p = true /\ 8 <= count_in Py.isdigit p).
Proof.
  intros p. subst p.
  destruct (ResumeParser.first_findall phone_patterns text no_flags) as [m|] eqn:E.
  - right. rewrite (ContactFacts.phone_of_first_match _ _ _ E).
    apply ContactFacts.first_findall_in in E as (pat & Hp & Hm).
    destruct (proj1 (Forall_forall _ _) ContactShape.phone_patterns_shape pat Hp)
      as (Hg & Hro & Hd).
    destruct (CheckFacts.findall_whole _ _ _ _ Hg Hm) as (st & u & st' & Hu & ->).
    split; [by eapply CheckFacts.reads_only_spec|].
    pose proof (CheckFacts.reads_at_least_spec _ Py.isdigit _ _ _ _ Hu). lia.
  - left. by apply ContactFacts.phone_of_no_match.
Qed.

(** X4: a non-empty name always has at least two whitespace-separated
    parts, whether a pattern or the entity fall-back found it. *)
Theorem name_has_two_parts (w : World) (text : string) :
  let n := name (extract_contact_info w text) in
  n = EmptyString \/ 2 <= length (Py.split n).
Proof.
  intros n. subst n.
  destruct (ResumeParser.first_findall name_patterns text MULTILINE) as [m|] eqn:E.
  - right. rewrite (ContactFacts.name_of_first_match _ _ _ E).
    apply ContactFacts.first_findall_in in E as (pat & Hp & Hm).
    by eapply ContactShape.name_match_two_parts.
  - rewrite (ContactFacts.name_of_no_match _ _ E). unfold ResumeParser.spacy_name.
    destruct (spacy_load w) as [nlp|]; [|by left].
    destruct (nlp (Py.take 1000 text)) as [doc|]; [|by left].
    destruct (ResumeParser.first_person (ents doc)) as [t|] eqn:Ep; [|by left].
    right. simpl. rewrite CheckFacts.split_strip_length.
    by eapply ContactShape.first_person_two_parts.
Qed.

(** ** Paths, extensions and lines *)

Module PathFacts.
Import StrFacts ReChecks CheckFacts Parts.

Lemma rev_app_app (a b c : string) :
  String.rev_app (String.rev_app a b) c = String.rev_app b (a +:+ c).
Proof.
  revert b c. induction a as [|x a IH]; intros b c; app_step; simpl; [done|].
  by rewrite IH.
Qed.

Lemma rev_app_as_app (a : string) : forall b,
  String.rev_app a b = String.rev_app a EmptyString +:+ b.
Proof.
  induction a as [|x a IH]; intros b; simpl; [done|].
  rewrite (IH (String x b)), (IH (String x EmptyString)), str_app_assoc. by app_step.
Qed.

Lemma rev_involutive (a : string) : String.rev (String.rev a) = a.
Proof. unfold String.rev. by rewrite rev_app_app, str_app_empty_r. Qed.

Lemma rev_cons (x : ascii) (a : string) :
  String.rev (String x a) = String.rev a +:+ String x EmptyString.
Proof. unfold String.rev. simpl. apply rev_app_as_app. Qed.

Lemma rev_app_distr (a b : string) : String.rev (a +:+ b) = String.rev b +:+ String.rev a.
Proof.
  induction a as [|x a IH]; app_step.
  - by rewrite str_app_empty_r.
  - by rewrite !rev_cons, IH, str_app_assoc.
Qed.

Lemma rev_length (a : string) : String.length (String.rev a) = String.length a.
Proof.
  induction a as [|x a IH]; [done|].
  rewrite rev_cons, str_length_app, IH. simpl. lia.
Qed.

Lemma lower_app (a b : string) : Py.lower (a +:+ b) = Py.lower a +:+ Py.lower b.
Proof. induction a as [|x a IH]; app_step; simpl; [done|]. by rewrite IH. Qed.

Lemma lower_length (a : string) : String.length (Py.lower a) = String.length a.
Proof. induction a as [|x a IH]; simpl; [done|]. by rewrite IH. Qed.

Lemma prefix_app (p a b : string) :
  String.length p <= String.length a ->
  String.prefix p (a +:+ b) = String.prefix p a.
Proof.
  revert a. induction p as [|x p IH]; intros a Hlen; [by destruct a, b|].
  destruct a as [|y a]; simpl in Hlen; [lia|]. app_step. simpl.
  destruct (ascii_dec x y); [|done]. apply IH. lia.
Qed.

(** A long enough ending decides [endswith], whatever stands before. *)
Lemma endswith_app (p a b : string) :
  String.length p <= String.length b ->
  Py.endswith p (a +:+ b) = Py.endswith p b.
Proof.
  intros Hlen. unfold Py.endswith. rewrite rev_app_distr.
  apply prefix_app. by rewrite !rev_length.
Qed.

Lemma endswith_length (p s : string) :
  Py.endswith p s = true -> String.length p <= String.length s.
Proof.
  unfold Py.endswith. rewrite <- (rev_length p), <- (rev_length s).
  generalize (String.rev p) (String.rev s). clear.
  induction s as [|x s IH]; intros [|y t]; simpl; try (done || lia).
  destruct (ascii_dec x y); [|done]. intros H%IH. lia.
Qed.

Lemma path_join_ends (root filename : string) :
  exists dir, path_join root filename = dir +:+ filename.
Proof.
  unfold path_join. destruct root as [|x root]; [by exists EmptyString|].
  destruct (Py.endswith "/" (String x root)).
  - by exists (String x root).
  - exists (String x root +:+ "/"). by rewrite str_app_assoc.
Qed.

(** The extension test of the loop, made on the file name, holds for the
    path the parser gets. *)
Lemma extension_of_path (ext root filename : string) :
  String.length ext <= String.length filename ->
  Py.endswith ext (Py.lower (path_join root filename))
  = Py.endswith ext (Py.lower filename).
Proof.
  intros Hlen. destruct (path_join_ends root filename) as [dir ->].
  rewrite lower_app. apply endswith_app. by rewrite lower_length.
Qed.

Lemma resume_file_length (filename : string) :
  is_resume_file filename = true -> 4 <= String.length filename.
Proof.
  unfold is_resume_file. intros [H|H]%orb_true_iff;
    apply endswith_length in H; rewrite lower_length in H; simpl in H; lia.
Qed.

Lemma prefix_cons (x y : ascii) (p s : string) :
  String.prefix (String x p) (String y s)
  = if ascii_dec x y then String.prefix p s else false.
Proof. reflexivity. Qed.

(** A name that ends in [.pdf] ends neither in [.txt] nor in [.docx]. *)
Lemma pdf_is_not_txt_or_docx (s : string) :
  Py.endswith ".pdf" s = true ->
  Py.endswith ".txt" s = false /\ Py.endswith ".docx" s = false.
Proof.
  unfold Py.endswith.
  change (String.rev ".pdf") with "fdp.". change (String.rev ".txt") with "txt.".
  change (String.rev ".docx") with "xcod.".
  destruct (String.rev s) as [|z s']; [done|]. rewrite !prefix_cons.
  destruct (ascii_dec "f" z) as [<-|]; [|done]. intros _. split.
  - by destruct (ascii_dec "t" "f").
  - by destruct (ascii_dec "x" "f").
Qed.

(** *** Lines *)

Lemma split_on_go_line (sep : ascii) (a : string) : forall cur rest,
  all_in (is_not sep) a = true ->
  Py.split_on_go sep cur (a +:+ rest) = Py.split_on_go sep (String.rev_app a cur) rest.
Proof.
  induction a as [|x a IH]; intros cur rest Ha; app_step; simpl; [done|].
  simpl in Ha. apply andb_true_iff in Ha as [Hx Ha]. unfold is_not in Hx.
  apply negb_true_iff in Hx. rewrite Hx. by apply IH.
Qed.

Lemma rev_rev_app (l : string) : String.rev (String.rev_app l EmptyString) = l.
Proof. unfold String.rev. by rewrite rev_app_app, str_app_empty_r. Qed.

Lemma split_on_go_end (sep : ascii) (cur : string) :
  Py.split_on_go sep cur EmptyString = [String.rev cur].
Proof. reflexivity. Qed.

Lemma split_on_go_sep (sep : ascii) (cur rest : string) :
  Py.split_on_go sep cur (String sep rest)
  = String.rev cur :: Py.split_on_go sep EmptyString rest.
Proof. simpl. by rewrite Ascii.eqb_refl. Qed.

Lemma split_on_join (lines : list string) :
  lines <> [] ->
  Forall (fun l => all_in (is_not LF) l = true) lines ->
  Py.split_on LF (join_lines lines) = lines.
Proof.
  unfold Py.split_on. induction lines as [|l ls IH]; [done|]. intros _ Hall.
  apply Forall_cons in Hall as [Hl Hls]. cbn [join_lines].
  destruct ls as [|l' ls'].
  - rewrite <- (str_app_empty_r l) at 1. rewrite split_on_go_line by done.
    by rewrite split_on_go_end, rev_rev_app.
  - rewrite split_on_go_line by done. rewrite split_on_go_sep, rev_rev_app. f_equal.
    by apply IH.
Qed.

(** *** Pages *)

Lemma pdf_pages_text_ok (texts : list (option string)) : forall acc,
  pdf_pages_text acc (map Ok texts) = Ok (acc +:+ join_pages texts).
Proof.
  induction texts as [|[t|] ts IH]; intros acc; simpl.
  - by rewrite str_app_empty_r.
  - by rewrite IH, str_app_assoc.
  - rewrite IH. by rewrite str_app_assoc.
Qed.

Lemma pdf_pages_text_raise (texts : list (option string)) e rest : forall acc,
  pdf_pages_text acc (map Ok texts ++ Raise e :: rest) = Raise e.
Proof.
  induction texts as [|[t|] ts IH]; intros acc; simpl; [done | apply IH | apply IH].
Qed.

End PathFacts.

Import Parts.

(** X5: whatever [extract_job_description] raises is a [ValueError] whose
    message starts with the stage that failed: the text file, the Word
    document or the PDF. *)
Theorem job_description_errors_are_labelled (w : World) (src : source) (e : exn) :
  JobParser.extract_job_description w src = Raise e ->
  exists detail,
    e = ValueError ("Error reading text file: " +:+ detail)
    \/ e = ValueError ("Error extracting text from Word document: " +:+ detail)
    \/ e = ValueError ("Error extracting text from PDF: " +:+ detail).
Proof.
  unfold JobParser.extract_job_description, JobParser.read_as_pdf,
    JobParser.extract_text_from_docx.
  destruct src as [s|obj].
  - destruct (path_exists w s); simpl; [|done].
    rewrite !andb_true_r.
    destruct (Py.endswith ".txt" (Py.lower s)).
    { destruct (read_text w s) as [|e']; [done|]. intros [= <-]. eauto. }
    destruct (Py.endswith ".docx" (Py.lower s)).
    { destruct (docx_paragraphs w s) as [|e']; [done|]. intros [= <-]. eauto. }
    destruct (pdf_text w (Str s)) as [|e']; [done|]. intros [= <-]. eauto.
  - destruct (pdf_text w (NotStr obj)) as [|e']; [done|]. intros [= <-]. eauto.
Qed.

Lemma job_description_errors_are_labelled_witness :
  exists detail,
    ValueError "Error extracting text from PDF: Unexpected EOF"
    = ValueError ("Error reading text file: " +:+ detail)
    \/ ValueError "Error extracting text from PDF: Unexpected EOF"
       = ValueError ("Error extracting text from Word document: " +:+ detail)
    \/ ValueError "Error extracting text from PDF: Unexpected EOF"
       = ValueError ("Error extracting text from PDF: " +:+ detail).
Proof.
  apply (job_description_errors_are_labelled Demo.world (Str "pair/broken.pdf")).
  vm_compute. reflexivity.
Defined.

(** X6: when pdfplumber opens a file and every page gives its text, both
    parsers return the page texts joined in page order, a page without text
    counting as empty and a PDF without pages giving the empty text; when a
    page raises, the resume parser raises that page's exception and the job
    parser the same one under its PDF label. *)
Theorem pdf_text_is_the_pages_in_order (w : World) (path : string) :
  Py.endswith ".pdf" (Py.lower path) = true ->
  path_exists w path = true ->
  (forall texts,
     pdf_open w (Str path) = Ok (map Ok texts) ->
     read_resume_text w path = Ok (join_pages texts)
     /\ JobParser.extract_job_description w (Str path) = Ok (join_pages texts))
  /\ (forall texts e rest,
     pdf_open w (Str path) = Ok (map Ok texts ++ Raise e :: rest) ->
     read_resume_text w path = Raise e
     /\ JobParser.extract_job_description w (Str path)
        = Raise (ValueError ("Error extracting text from PDF: " +:+ exn_str e))).
Proof.
  intros Hext Hex.
  destruct (PathFacts.pdf_is_not_txt_or_docx _ Hext) as [Htxt Hdocx].
  unfold read_resume_text, JobParser.extract_job_description, JobParser.read_as_pdf,
    pdf_text.
  rewrite Hext, Hex, Htxt, Hdocx. simpl. split.
  - intros texts ->. simpl. by rewrite PathFacts.pdf_pages_text_ok.
  - intros texts e rest ->. simpl. by rewrite PathFacts.pdf_pages_text_raise.
Qed.

Lemma pdf_text_is_the_pages_in_order_witness :
  read_resume_text Demo.world "pair/jane.pdf" = Ok Demo.jane_text
  /\ JobParser.extract_job_description Demo.world (Str "pair/jane.pdf") = Ok Demo.jane_text.
Proof.
  assert (join_pages [Some Demo.jane_text; None] = Demo.jane_text) as E
    by (vm_compute; reflexivity).
  rewrite <- E.
  apply (pdf_text_is_the_pages_in_order Demo.world "pair/jane.pdf");
    vm_compute; reflexivity.
Defined.

(** X7: the text of a Word document is its paragraphs joined by line
    feeds: split at the line feeds it gives the paragraphs back, as long as
    there is at least one paragraph and none holds a line feed; both
    modules read a document the same way. *)
Theorem docx_text_splits_into_paragraphs (w : World) (docx_path : string)
    (paragraphs : list string) :
  docx_paragraphs w docx_path = Ok paragraphs ->
  paragraphs <> [] ->
  Forall (fun p => all_in (is_not LF) p = true) paragraphs ->
  exists text,
    ResumeParser.extract_text_from_docx w docx_path = Ok text
    /\ JobParser.extract_text_from_docx w docx_path = Ok text
    /\ Py.split_on LF text = paragraphs.
Proof.
  intros Hd Hne Hall. exists (join_lines paragraphs).
  unfold ResumeParser.extract_text_from_docx, JobParser.extract_text_from_docx.
  rewrite Hd. repeat split. by apply PathFacts.split_on_join.
Qed.

Lemma docx_text_splits_into_paragraphs_witness :
  exists text,
    ResumeParser.extract_text_from_docx Office.world "temp_resumes/ana.docx" = Ok text
    /\ JobParser.extract_text_from_docx Office.world "temp_resumes/ana.docx" = Ok text
    /\ Py.split_on LF text = Office.ana_paragraphs.
Proof.
  apply (docx_text_splits_into_paragraphs Office.world "temp_resumes/ana.docx"
           Office.ana_paragraphs).
  - reflexivity.
  - discriminate.
  - repeat constructor.
Defined.

(** X8: the extension test that the batch loops make on the file name
    holds for the path they hand to [extract_resume_data], so a file the
    loops take is read as a PDF or as a Word document and never refused as
    an unsupported format. *)
Theorem walked_files_are_supported (w : World) (root filename : string) :
  is_resume_file filename = true ->
  let resume_path := path_join root filename in
  is_resume_file resume_path = true
  /\ (read_resume_text w resume_path = pdf_text w (Str resume_path)
      \/ read_resume_text w resume_path
         = ResumeParser.extract_text_from_docx w resume_path).
Proof.
  intros Hf resume_path. subst resume_path.
  pose proof (PathFacts.resume_file_length _ Hf) as Hlen.
  assert (is_resume_file (path_join root filename) = true) as Hp.
  { unfold is_resume_file in *.
    rewrite (PathFacts.extension_of_path ".pdf") by (simpl; lia).
    apply orb_true_iff in Hf as [Hf|Hf]; [by rewrite Hf|].
    pose proof (PathFacts.endswith_length _ _ Hf) as H5.
    rewrite PathFacts.lower_length in H5.
    rewrite (PathFacts.extension_of_path ".docx") by done.
    rewrite Hf. apply orb_true_r. }
  split; [done|]. unfold read_resume_text. unfold is_resume_file in Hp.
  destruct (Py.endswith ".pdf" (Py.lower (path_join root filename))); [by left|].
  simpl in Hp. rewrite Hp. by right.
Qed.

Lemma walked_files_are_supported_witness :
  is_resume_file "cv/Maria.PDF" = true
  /\ (read_resume_text Demo.world "cv/Maria.PDF" = pdf_text Demo.world (Str "cv/Maria.PDF")
      \/ read_resume_text Demo.world "cv/Maria.PDF"
         = ResumeParser.extract_text_from_docx Demo.world "cv/Maria.PDF").
Proof.
  apply (walked_files_are_supported Demo.world "cv" "Maria.PDF"). vm_compute. reflexivity.
Defined.

(** X9: when spaCy's model is not installed ([spacy.load] raises
    [OSError]), [match_resumes], [filter_resumes_by_skills] and
    [extract_client_information] without a parsed document all raise the
    same [RuntimeError], whatever their other arguments, and before any
    file is touched; contact extraction still returns, its name found by
    the patterns alone. *)
Theorem missing_spacy_model_stops_the_batches (w : World) (msg : string) :
  spacy_load w = Raise (OSError msg) ->
  let err := RuntimeError
    "spaCy model 'en_core_web_md' is not installed. Please add it to requirements.txt" in
  (forall job_description_path resumes_folder,
     match_resumes w job_description_path resumes_folder = Raise err)
  /\ (forall resumes_folder skills min_threshold,
     filter_resumes_by_skills w resumes_folder skills min_threshold = Raise err)
  /\ (forall resume_text, extract_client_information w resume_text None = Raise err)
  /\ (forall text,
     name (extract_contact_info w text)
     = default EmptyString
         (ResumeParser.first_findall name_patterns text MULTILINE)).
Proof.
  intros Hs err.
  assert (get_nlp_model w = Raise err) as Hn by (unfold get_nlp_model; by rewrite Hs).
  split; [|split; [|split]].
  - intros jd folder. unfold match_resumes. by rewrite Hn.
  - intros folder skills thr. unfold filter_resumes_by_skills. by rewrite Hn.
  - intros text. unfold extract_client_information. by rewrite Hn.
  - intros text.
    destruct (ResumeParser.first_findall name_patterns text MULTILINE) as [m|] eqn:E.
    + by apply ContactFacts.name_of_first_match.
    + rewrite (ContactFacts.name_of_no_match _ _ E). unfold ResumeParser.spacy_name.
      by rewrite Hs.
Qed.

Lemma missing_spacy_model_stops_the_batches_witness :
  match_resumes Demo.world_without_spacy (Str "engineer") "cv"
  = Raise (RuntimeError
      "spaCy model 'en_core_web_md' is not installed. Please add it to requirements.txt").
Proof.
  apply (missing_spacy_model_stops_the_batches Demo.world_without_spacy
           "[E050] Can't find model 'en_core_web_md'." eq_refl).
Defined.

(** ** More about the batches *)

Module RankFacts.
Import BatchFacts.

Section Stable.
Context {A : Type} (key : A -> Q).

Lemma with_key_insert (q : Q) (x : A) (l : list A) :
  with_key key q (insert_desc key x l) = with_key key q (x :: l).
Proof.
  unfold with_key. induction l as [|y l IH]; [done|]. cbn [insert_desc].
  destruct (Qle_bool (key y) (key x)) eqn:E; [done|].
  cbn [List.filter] in *. rewrite IH.
  destruct (Qeq_bool (key x) q) eqn:Ex, (Qeq_bool (key y) q) eqn:Ey; try done.
  apply Qeq_bool_iff in Ex, Ey. exfalso.
  assert (Qle_bool (key y) (key x) = true); [|congruence].
  apply Qle_bool_iff. rewrite Ex, Ey. apply Qle_refl.
Qed.

(** Ranking keeps the order of entries with equal keys. *)
Lemma sorted_desc_stable (q : Q) (l : list A) :
  with_key key q (sorted_desc key l) = with_key key q l.
Proof.
  induction l as [|x l IH]; [done|]. cbn [sorted_desc foldr].
  fold (sorted_desc key l). rewrite with_key_insert.
  unfold with_key in *. cbn [List.filter]. by rewrite IH.
Qed.

End Stable.

Section Counting.
Context {A : Type} (body : string -> string -> result (option A)).

Lemma omap_step {B C} (f : B -> option C) (x : B) (l : list B) :
  omap f (x :: l) = match f x with Some y => y :: omap f l | None => omap f l end.
Proof. reflexivity. Qed.

Lemma entries_and_reports (files : list (string * string)) :
  length (omap (entry_of body) files) + length (omap (report_of body) files)
  <= length files.
Proof.
  induction files as [|[root f] files IH]; [done|]. rewrite !omap_step.
  unfold entry_of at 1, report_of at 1. cbn [fst snd].
  destruct (body root f) as [[r|]|e]; cbn [length]; lia.
Qed.

Lemma entries_and_reports_total (files : list (string * string)) :
  (forall root f, body root f <> Ok None) ->
  length (omap (entry_of body) files) + length (omap (report_of body) files)
  = length files.
Proof.
  intros Hb. induction files as [|[root f] files IH]; [done|]. rewrite !omap_step.
  unfold entry_of at 1, report_of at 1. cbn [fst snd].
  destruct (body root f) as [[r|]|e] eqn:E; cbn [length]; try lia. by apply Hb in E.
Qed.

End Counting.

Lemma match_one_never_none (w : World) model (jv : embedding w) root filename :
  match_one w model jv root filename <> Ok None.
Proof.
  unfold match_one.
  destruct (ResumeParser.extract_resume_data w _) as [[text ci]|]; [|done]. simpl.
  by destruct (encode_one model text).
Qed.

Lemma match_one_fields (w : World) model (jv : embedding w) root filename r :
  match_one w model jv root filename = Ok (Some r) ->
  mr_filename r = filename /\ mr_path r = path_join root filename.
Proof.
  unfold match_one.
  destruct (ResumeParser.extract_resume_data w _) as [[text ci]|]; [|done]. simpl.
  destruct (encode_one model text); [|done]. simpl. by intros [= <-].
Qed.

End RankFacts.

(** ** The threshold *)

Module ThresholdFacts.
Import BatchFacts SkillFacts FilterFacts.

#[local] Opaque client_loop.

Section Thresholds.
Context (w : World) (pse : list (embedding w)).

Lemma skill_loop_raise_indep (t t' : Q) :
  forall (sk : list (string * embedding w)) e,
    skill_loop w sk pse t = Raise e -> skill_loop w sk pse t' = Raise e.
Proof.
  induction sk as [|[s v] sk IH]; intros e H; simpl in *; [done|].
  destruct (py_max (similarities w v pse)) as [best|e']; [|done]. simpl in *.
  destruct (skill_loop w sk pse t) as [[m' s']|e'] eqn:El.
  - simpl in H. by destruct (Qle_bool t best).
  - simpl in H. injection H as <-. by rewrite (IH e' eq_refl).
Qed.

Lemma skill_loop_mono (t1 t2 : Q) :
  (t1 <= t2)%Q ->
  forall (sk : list (string * embedding w)) m2 s2,
    skill_loop w sk pse t2 = Ok (m2, s2) ->
    exists m1 s1, skill_loop w sk pse t1 = Ok (m1, s1) /\ sublist m2 m1.
Proof.
  intros Hle. induction sk as [|[s v] sk IH]; intros m2 s2 H; simpl in *.
  - injection H as <- <-. by exists [], [].
  - destruct (py_max (similarities w v pse)) as [best|e']; [|done]. simpl in *.
    destruct (skill_loop w sk pse t2) as [[m' s']|e'] eqn:El; [|done]. simpl in H.
    destruct (IH m' s' eq_refl) as (m1 & s1 & -> & Hsub). simpl.
    destruct (Qle_bool t2 best) eqn:E2; injection H as <- <-.
    + assert (Qle_bool t1 best = true) as ->.
      { apply Qle_bool_iff. apply Qle_bool_iff in E2. by eapply Qle_trans. }
      eexists _, _. split; [done|]. by constructor.
    + destruct (Qle_bool t1 best); eexists _, _; (split; [done|]); [by constructor | done].
Qed.

End Thresholds.

Section OneFile.
Context (w : World) (nlp : string -> result Doc)
  (model : string -> result (embedding w)) (skills : list string)
  (skill_vecs : list (embedding w)) (root filename : string).

Lemma filter_one_raise_indep (t t' : Q) e :
  filter_one w nlp model skills skill_vecs t root filename = Raise e ->
  filter_one w nlp model skills skill_vecs t' root filename = Raise e.
Proof.
  unfold filter_one.
  destruct (ResumeParser.extract_resume_data w (path_join root filename))
    as [[text ci]|err]; [|done]. simpl.
  destruct (nlp text) as [doc|err]; [|done]. simpl.
  unfold extract_client_information. simpl.
  destruct (client_loop ∅ client_patterns text) as [cs|err]; [|done]. simpl.
  destruct (potential_skills doc) as [|c cands]; [done|].
  destruct (model_encode model (c :: cands)) as [pse|err]; [|done]. simpl.
  destruct (skill_loop w (zip skills skill_vecs) pse t) as [[m s]|err] eqn:El.
  - simpl. by destruct m.
  - simpl. intros [= <-]. by rewrite (skill_loop_raise_indep w pse t t' _ _ El).
Qed.

Lemma filter_one_mono (t1 t2 : Q) e2 :
  (t1 <= t2)%Q ->
  filter_one w nlp model skills skill_vecs t2 root filename = Ok (Some e2) ->
  exists e1,
    filter_one w nlp model skills skill_vecs t1 root filename = Ok (Some e1)
    /\ sr_path e1 = sr_path e2 /\ sr_filename e1 = sr_filename e2
    /\ sr_name e1 = sr_name e2 /\ clients e1 = clients e2
    /\ sublist (matched_skills e2) (matched_skills e1).
Proof.
  intros Hle. unfold filter_one.
  destruct (ResumeParser.extract_resume_data w (path_join root filename))
    as [[text ci]|err]; [|done]. simpl.
  destruct (nlp text) as [doc|err]; [|done]. simpl.
  unfold extract_client_information. simpl.
  destruct (client_loop ∅ client_patterns text) as [cs|err]; [|done]. simpl.
  destruct (potential_skills doc) as [|c cands]; [done|].
  destruct (model_encode model (c :: cands)) as [pse|err]; [|done]. simpl.
  destruct (skill_loop w (zip skills skill_vecs) pse t2) as [[m2 s2]|err] eqn:El; [|done].
  simpl. destruct (skill_loop_mono w pse t1 t2 Hle _ _ _ El) as (m1 & s1 & -> & Hsub).
  simpl. destruct m2 as [|x m2]; [done|]. intros [= <-].
  destruct m1 as [|y m1]; [by apply sublist_nil_r in Hsub|].
  eexists. split; [done|]. simpl. by repeat split.
Qed.

End OneFile.






Lemma matched_sublist (f : string * Q -> bool) (skills : list string) : forall bests,
  sublist (map fst (List.filter f (zip skills bests))) skills.
Proof.
  induction skills as [|s skills IH]; intros bests; [by destruct bests|].
  destruct bests as [|b bests]; simpl; [apply sublist_nil_l|].
  destruct (f (s, b)); simpl; [by apply sublist_skip | by apply sublist_cons].
Qed.

End ThresholdFacts.

(** X10: ranking is stable: entries with equal scores stay in the order in
    which the walk met their files, in both batch operations. *)
Theorem ranking_keeps_ties_in_walk_order (w : World) (q : Q) :
  (forall job_description_path resumes_folder b,
     match_resumes w job_description_path resumes_folder = Ok b ->
     exists model job_vec,
       with_key score q (results b)
       = with_key score q
           (omap (entry_of (match_one w model job_vec))
              (resume_files w resumes_folder)))
  /\ (forall resumes_folder skills min_threshold b,
     filter_resumes_by_skills w resumes_folder skills min_threshold = Ok b ->
     exists nlp model skill_vecs,
       with_key match_score q (results b)
       = with_key match_score q
           (omap (entry_of (filter_one w nlp model skills skill_vecs min_threshold))
              (resume_files w resumes_folder))).
Proof.
  split.
  - intros jd folder b (nlp & model & jdesc & jv & _ & _ & _ & _ & ->)%match_resumes_ok.
    exists model, jv. simpl. rewrite RankFacts.sorted_desc_stable.
    by destruct (BatchFacts.walk_loop_spec w (match_one w model jv) folder) as [-> _].
  - intros folder skills thr b
      (nlp & model & sv & _ & _ & _ & ->)%filter_resumes_by_skills_ok.
    exists nlp, model, sv. simpl. rewrite RankFacts.sorted_desc_stable.
    by destruct (BatchFacts.walk_loop_spec w (filter_one w nlp model skills sv thr) folder)
      as [-> _].
Qed.

Lemma ranking_keeps_ties_in_walk_order_witness :
  exists b,
    match_resumes Demo.world (Str "a") "cv" = Ok b
    /\ map mr_filename (with_key score (3 # 4)%Q (results b)) = ["jane.pdf"; "maria.pdf"]
    /\ exists model job_vec,
         with_key score (3 # 4)%Q (results b)
         = with_key score (3 # 4)%Q
             (omap (entry_of (match_one Demo.world model job_vec))
                (resume_files Demo.world "cv")).
Proof.
  eexists. split; [vm_compute; reflexivity|]. split; [vm_compute; reflexivity|].
  exact (proj1 (ranking_keeps_ties_in_walk_order Demo.world (3 # 4)%Q)
           (Str "a") "cv" _ eq_refl).
Defined.

(** X11: every file with a resume extension that the walk meets is
    accounted for.  In [match_resumes] it gives exactly one entry or one
    printed line, so entries and lines together are as many as the files;
    in [filter_resumes_by_skills] they are at most as many.  Every entry of
    [match_resumes] carries the name of such a file and the path made of
    its directory and name. *)
Theorem every_resume_file_is_accounted_for (w : World) :
  (forall job_description_path resumes_folder b,
     match_resumes w job_description_path resumes_folder = Ok b ->
     length (results b) + length (printed b)
     = length (resume_files w resumes_folder)
     /\ forall r, In r (results b) ->
          is_resume_file (mr_filename r) = true
          /\ exists root,
               (root, mr_filename r) ∈ resume_files w resumes_folder
               /\ mr_path r = path_join root (mr_filename r))
  /\ (forall resumes_folder skills min_threshold b,
     filter_resumes_by_skills w resumes_folder skills min_threshold = Ok b ->
     length (results b) + length (printed b)
     <= length (resume_files w resumes_folder)).
Proof.
  split.
  - intros jd folder b (nlp & model & jdesc & jv & _ & _ & _ & _ & ->)%match_resumes_ok.
    simpl. rewrite BatchFacts.sorted_desc_length.
    destruct (BatchFacts.walk_loop_spec w (match_one w model jv) folder) as [Hr Hp].
    rewrite Hr, Hp. split.
    + apply RankFacts.entries_and_reports_total. intros root f.
      apply RankFacts.match_one_never_none.
    + intros r Hin. apply (Permutation_in _ (BatchFacts.sorted_desc_perm _ _)) in Hin.
      apply in_omap_entry in Hin as (root & filename & Hf & Hb).
      apply RankFacts.match_one_fields in Hb as [-> ->].
      split; [by eapply NameFacts.resume_files_spec|]. by exists root.
  - intros folder skills thr b
      (nlp & model & sv & _ & _ & _ & ->)%filter_resumes_by_skills_ok.
    simpl. rewrite BatchFacts.sorted_desc_length.
    destruct (BatchFacts.walk_loop_spec w (filter_one w nlp model skills sv thr) folder)
      as [Hr Hp].
    rewrite Hr, Hp. apply RankFacts.entries_and_reports.
Qed.

Lemma every_resume_file_is_accounted_for_witness :
  exists b,
    match_resumes Demo.world (Str "engineer") "cv" = Ok b
    /\ length (results b) + length (printed b) = 3.
Proof.
  eexists. split; [vm_compute; reflexivity|].
  exact (proj1 (proj1 (every_resume_file_is_accounted_for Demo.world)
                 (Str "engineer") "cv" _ eq_refl)).
Defined.

(** X12: raising the threshold never adds anything.  With the same folder
    and skills, every file listed at the higher threshold is listed at the
    lower one, with the same name and client list, and its matched skills
    at the higher threshold are among those at the lower one, in the same
    order; the printed error lines do not depend on the threshold. *)
Theorem higher_threshold_lists_less (w : World) (resumes_folder : string)
    (skills : list string) (t1 t2 : Q) (b1 b2 : Batch SkillMatchResult) :
  (t1 <= t2)%Q ->
  filter_resumes_by_skills w resumes_folder skills t1 = Ok b1 ->
  filter_resumes_by_skills w resumes_folder skills t2 = Ok b2 ->
  printed b1 = printed b2
  /\ forall e2, In e2 (results b2) ->
       exists e1,
         In e1 (results b1)
         /\ sr_path e1 = sr_path e2 /\ sr_filename e1 = sr_filename e2
         /\ sr_name e1 = sr_name e2 /\ clients e1 = clients e2
         /\ sublist (matched_skills e2) (matched_skills e1).
Proof.
  intros Hle
    (nlp & model & sv & Hn & Hm & Hs & ->)%filter_resumes_by_skills_ok
    (nlp' & model' & sv' & Hn' & Hm' & Hs' & ->)%filter_resumes_by_skills_ok.
  assert (nlp' = nlp) as -> by congruence.
  assert (model' = model) as -> by congruence.
  assert (sv' = sv) as ->.
  { apply SkillFacts.encode_spec in Hs, Hs'. congruence. }
  simpl.
  set (body1 := filter_one w nlp model skills sv t1).
  set (body2 := filter_one w nlp model skills sv t2).
  destruct (BatchFacts.walk_loop_spec w body1 resumes_folder) as [Hr1 Hp1].
  destruct (BatchFacts.walk_loop_spec w body2 resumes_folder) as [Hr2 Hp2].
  split.
  - rewrite Hp1, Hp2. apply list_omap_ext, Forall2_same_length_lookup_2; [done|].
    intros i [r1 f1] [r2 f2] H1 H2. assert ((r1, f1) = (r2, f2)) as [= -> ->] by congruence.
    unfold report_of. simpl.
    destruct (body1 r2 f2) as [o1|e1] eqn:E1, (body2 r2 f2) as [o2|e2] eqn:E2; try done.
    + apply (ThresholdFacts.filter_one_raise_indep _ _ _ _ _ _ _ t2 t1) in E2.
      unfold body1 in E1. congruence.
    + apply (ThresholdFacts.filter_one_raise_indep _ _ _ _ _ _ _ t1 t2) in E1.
      unfold body2 in E2. congruence.
    + apply (ThresholdFacts.filter_one_raise_indep _ _ _ _ _ _ _ t1 t2) in E1.
      unfold body2 in E2. congruence.
  - intros e2 Hin. apply (Permutation_in _ (BatchFacts.sorted_desc_perm _ _)) in Hin.
    rewrite Hr2 in Hin. apply in_omap_entry in Hin as (root & filename & Hf & Hb).
    destruct (ThresholdFacts.filter_one_mono _ _ _ _ _ _ _ t1 t2 e2 Hle Hb)
      as (e1 & He1 & Hrest).
    exists e1. split; [|done].
    apply (Permutation_in _ (Permutation_sym (BatchFacts.sorted_desc_perm _ _))).
    rewrite Hr1. apply in_omap_entry. by exists root, filename.
Qed.

Lemma higher_threshold_lists_less_witness :
  exists b1 b2,
    filter_resumes_by_skills Demo.world "cv" ["Python"; "curriculum vitae"] (1 # 2)%Q = Ok b1
    /\ filter_resumes_by_skills Demo.world "cv" ["Python"; "curriculum vitae"] (9 # 10)%Q
       = Ok b2
    /\ map sr_filename (results b1) = ["maria.pdf"; "jane.pdf"]
    /\ map sr_filename (results b2) = ["maria.pdf"]
    /\ printed b1 = printed b2.
Proof.
  eexists _, _. split; [vm_compute; reflexivity|]. split; [vm_compute; reflexivity|].
  split; [reflexivity|]. split; [reflexivity|].
  refine (proj1 (higher_threshold_lists_less Demo.world "cv" ["Python"; "curriculum vitae"]
                   (1 # 2)%Q (9 # 10)%Q _ _ _ eq_refl eq_refl)).
  vm_compute. discriminate.
Defined.



(** X14: the matched skills of an entry are requested skills, in the order
    in which they were requested, and there is at least one. *)
Theorem matched_skills_are_requested (w : World) (resumes_folder : string)
    (skills : list string) (min_threshold : Q) (b : Batch SkillMatchResult)
    (e : SkillMatchResult) :
  filter_resumes_by_skills w resumes_folder skills min_threshold = Ok b ->
  In e (results b) ->
  sublist (matched_skills e) skills /\ matched_skills e <> [].
Proof.
  intros (nlp & model & sv & _ & _ & Hs & ->)%filter_resumes_by_skills_ok. simpl.
  intros Hin. apply (Permutation_in _ (BatchFacts.sorted_desc_perm _ _)) in Hin.
  destruct (BatchFacts.walk_loop_spec w (filter_one w nlp model skills sv min_threshold)
              resumes_folder) as [Hr _].
  rewrite Hr in Hin. apply in_omap_entry in Hin as (root & filename & _ & Hb).
  apply (FilterFacts.filter_one_some _ _ _ _ _ _ _ _ Hs) in Hb
    as (text & ci & doc & _ & _ & Hspec & _).
  destruct Hspec as (cv & sv' & bests & _ & _ & _ & _ & -> & Hne & _).
  split; [apply ThresholdFacts.matched_sublist | done].
Qed.

Lemma matched_skills_are_requested_witness :
  exists b e,
    filter_resumes_by_skills Demo.world "cv" ["Python"; "curriculum vitae"] (1 # 2)%Q = Ok b
    /\ head (results b) = Some e
    /\ sublist (matched_skills e) ["Python"; "curriculum vitae"].
Proof.
  eexists _, _. split; [vm_compute; reflexivity|]. split; [reflexivity|].
  exact (proj1 (matched_skills_are_requested Demo.world "cv" ["Python"; "curriculum vitae"]
                  (1 # 2)%Q _ _ eq_refl (or_introl eq_refl))).
Defined.

(** ** Client names and skill lists *)

Module ShapeFacts.
Import Re ReSpec ReChecks Parts Shapes Spec Main StrFacts.





#[local] Opaque client_loop.


(** The pieces of [split] hold no separator. *)
Lemma all_in_rev P (s : string) : all_in P (String.rev s) = all_in P s.
Proof.
  induction s as [|x s IH]; [done|].
  rewrite PathFacts.rev_cons, CheckFacts.all_in_app, IH. simpl.
  rewrite andb_true_r. apply andb_comm.
Qed.

Lemma split_on_go_pieces (sep : ascii) (s : string) : forall cur,
  all_in (is_not sep) cur = true ->
  Forall (fun p => all_in (is_not sep) p = true) (Py.split_on_go sep cur s).
Proof.
  induction s as [|x s IH]; intros cur Hcur; simpl.
  - constructor; [by rewrite all_in_rev | constructor].
  - destruct (Ascii.eqb x sep) eqn:E.
    + constructor; [by rewrite all_in_rev | by apply IH].
    + apply IH. simpl. unfold is_not at 1. by rewrite E.
Qed.

Lemma parse_skills_shape (skills_input : string) :
  Forall skill_name (App.parse_skills skills_input).
Proof.
  unfold App.parse_skills. apply Forall_forall. intros s Hs.
  apply list_elem_of_In, in_map_iff in Hs as (p & <- & Hp).
  apply filter_In in Hp as [Hp Ht].
  split; [by destruct (Py.strip p)|]. split; [apply CheckFacts.strip_idempotent|].
  apply CheckFacts.all_in_strip.
  apply list_elem_of_In in Hp.
  by apply (proj1 (Forall_forall _ _) (split_on_go_pieces "," skills_input EmptyString eq_refl)).
Qed.

End ShapeFacts.

(** ** The loop of the front end *)

Module Tab1Facts.
Import Spec Main Tab1.

Lemma loop_spec (body : string -> result Row) (files : list string) : forall acc,
  results (fold_left (step body) files acc) = results acc ++ omap (row_of body) files
  /\ printed (fold_left (step body) files acc) = printed acc ++ omap (message_of body) files.
Proof.
  induction files as [|f files IH]; intros acc.
  - simpl. by rewrite !app_nil_r.
  - cbn [fold_left]. destruct (IH (step body acc f)) as [-> ->].
    change (omap ?g (f :: files)) with
      (match g f with Some y => y :: omap g files | None => omap g files end).
    unfold step, row_of, message_of.
    destruct (is_resume_file f); [|done].
    destruct (body f) as [r|e]; simpl; by rewrite <- ?app_assoc.
Qed.

Lemma map_insert_desc {A B} (f : A -> B) (k : A -> Q) (k' : B -> Q) (x : A) (l : list A) :
  (forall a, k' (f a) = k a) ->
  map f (insert_desc k x l) = insert_desc k' (f x) (map f l).
Proof.
  intros Hk. induction l as [|y l IH]; [done|]. simpl. rewrite !Hk.
  destruct (Qle_bool (k y) (k x)); [done|]. simpl. by rewrite IH.
Qed.

Lemma map_sorted_desc {A B} (f : A -> B) (k : A -> Q) (k' : B -> Q) (l : list A) :
  (forall a, k' (f a) = k a) ->
  map f (sorted_desc k l) = sorted_desc k' (map f l).
Proof.
  intros Hk. unfold sorted_desc. induction l as [|x l IH]; [done|]. simpl.
  by rewrite (map_insert_desc f k k'), IH.
Qed.

Lemma flat_resume_files (w : World) (folder : string) :
  walk w folder = [(folder, listdir w folder)] ->
  resume_files w folder = map (pair folder) (List.filter is_resume_file (listdir w folder)).
Proof. unfold resume_files. intros ->. simpl. apply app_nil_r. Qed.

Section OneFile.
Context (w : World) (nlp : string -> result Doc) (model : string -> result (embedding w)).
Context (job_desc : string) (job_vec : embedding w).
Hypothesis Hjob : model job_desc = Ok job_vec.
Hypothesis Hnlp : forall text, exists doc, nlp text = Ok doc.

#[local] Opaque client_loop doc_limit.

(** The front end and [match_resumes] treat one file alike. *)
Lemma match_file_like_match_one (filename : string) :
  match match_one w model job_vec App.temp_resume_dir filename with
  | Ok (Some m) =>
      exists r, match_file w nlp model job_desc filename = Ok r
                /\ row_summary r = match_summary m
  | Ok None => False
  | Raise e => match_file w nlp model job_desc filename = Raise e
  end.
Proof.
  unfold match_one, match_file.
  destruct (ResumeParser.extract_resume_data w (path_join App.temp_resume_dir filename))
    as [[text ci]|err]; [|done]. simpl.
  unfold encode_one, model_encode. simpl. rewrite Hjob. simpl.
  destruct (model text) as [v|err]; [|done]. simpl.
  destruct (Hnlp (Py.take doc_limit text)) as [doc ->]. simpl.
  unfold extract_client_information. simpl.
  destruct (ClientFacts.clients_of_text text) as (cs & -> & _). simpl.
  eexists. split; reflexivity.
Qed.

Lemma rows_like_entries (files : list string) :
  map row_summary (omap (row_of (match_file w nlp model job_desc)) files)
  = map match_summary
      (omap (entry_of (match_one w model job_vec))
         (map (pair App.temp_resume_dir) (List.filter is_resume_file files)))
  /\ length (omap (message_of (match_file w nlp model job_desc)) files)
     = length (omap (report_of (match_one w model job_vec))
         (map (pair App.temp_resume_dir) (List.filter is_resume_file files))).
Proof.
  induction files as [|f files [IH1 IH2]]; [done|].
  change (omap ?g (f :: files)) with
    (match g f with Some y => y :: omap g files | None => omap g files end).
  cbn [List.filter]. unfold row_of at 1, message_of at 1.
  destruct (is_resume_file f); [|done]. cbn [map].
  change (omap ?g (?x :: ?l)) with
    (match g x with Some y => y :: omap g l | None => omap g l end).
  unfold entry_of at 1, report_of at 1. cbn [fst snd].
  pose proof (match_file_like_match_one f) as H.
  destruct (match_one w model job_vec App.temp_resume_dir f) as [[m|]|e]; [|done|].
  - destruct H as (r & -> & Hr). cbn [map]. by rewrite Hr, IH1.
  - rewrite H. cbn [length]. by rewrite IH2.
Qed.

Lemma rows_in_listing_order (body : string -> result Row) (files : list string) :
  (forall f r, body f = Ok r -> row_filename r = f) ->
  sublist (map row_filename (omap (row_of body) files)) files.
Proof.
  intros Hb. induction files as [|f files IH]; [done|].
  change (omap ?g (f :: files)) with
    (match g f with Some y => y :: omap g files | None => omap g files end).
  unfold row_of at 1. destruct (is_resume_file f); [|by apply sublist_cons].
  destruct (body f) as [r|e] eqn:E; [|by apply sublist_cons].
  cbn [map]. rewrite (Hb _ _ E). by apply sublist_skip.
Qed.

Lemma match_file_filename (filename : string) r :
  match_file w nlp model job_desc filename = Ok r -> row_filename r = filename.
Proof.
  unfold match_file.
  destruct (ResumeParser.extract_resume_data w (path_join App.temp_resume_dir filename))
    as [[text ci]|err]; [|done]. simpl.
  destruct (encode_one model job_desc); [|done]. simpl.
  destruct (encode_one model text); [|done]. simpl.
  destruct (nlp (Py.take doc_limit text)); [|done]. simpl.
  destruct (extract_client_information w text (Some _)); [|done]. simpl.
  by intros [= <-].
Qed.

End OneFile.

End Tab1Facts.

Import Shapes Tab1.



(** X16: the skills the front end makes of the text area are not empty,
    trimmed and free of commas; when the "Filter Resumes" button starts the
    filter, it does so with exactly these skills, of which there is at least
    one, with the threshold of the slider, on the folder of the uploads. *)
Theorem front_end_hands_on_clean_skills (w : World) (skills_input : string)
    (min_threshold : Q) :
  Forall skill_name (App.parse_skills skills_input)
  /\ forall skills thr outcome,
       App.filter_button w skills_input min_threshold
         = App.StartFiltering skills thr outcome ->
       skills = App.parse_skills skills_input
       /\ skills <> []
       /\ thr = min_threshold
       /\ outcome = filter_resumes_by_skills w App.temp_resume_dir skills min_threshold.
Proof.
  split; [apply ShapeFacts.parse_skills_shape|].
  intros skills thr outcome. unfold App.filter_button.
  destruct (Py.truthy skills_input && path_exists w App.temp_resume_dir); [|done].
  destruct (App.parse_skills skills_input) as [|s ss]; [done|].
  by intros [= <- <- <-].
Qed.

Lemma front_end_hands_on_clean_skills_witness :
  exists outcome,
    App.filter_button Office.world " Python, ,SQL " (1 # 2)%Q
      = App.StartFiltering ["Python"; "SQL"] (1 # 2)%Q outcome
    /\ ["Python"; "SQL"] = App.parse_skills " Python, ,SQL "
    /\ Forall skill_name (App.parse_skills " Python, ,SQL ").
Proof.
  eexists. split; [reflexivity|].
  destruct (front_end_hands_on_clean_skills Office.world " Python, ,SQL " (1 # 2)%Q)
    as [Hshape Hstart].
  split; [exact (proj1 (Hstart _ _ _ eq_refl)) | exact Hshape].
Defined.

(** X17: the loop behind the "Match Resumes" button and [match_resumes]
    agree up to order.  When the upload folder has no sub-folders, the
    pipeline of the front end accepts every text and [match_resumes]
    returns, the loop of the front end ends too; its rows come in the order
    of the directory listing, not by score; sorted by score they have the
    names, e-mails, phones, scores and file names of the list of
    [match_resumes]; and it shows as many error messages as
    [match_resumes] prints. *)
Theorem front_end_rows_are_the_matches_unsorted (w : World)
    (nlp : string -> result Doc) (job_description_path : string)
    (b : Batch MatchResult) :
  walk w App.temp_resume_dir = [(App.temp_resume_dir, listdir w App.temp_resume_dir)] ->
  (forall text, exists doc, nlp text = Ok doc) ->
  match_resumes w (Str job_description_path) App.temp_resume_dir = Ok b ->
  exists t,
    matching w nlp job_description_path = Ok t
    /\ sublist (map row_filename (results t)) (listdir w App.temp_resume_dir)
    /\ map match_summary (results b)
       = sorted_desc summary_score (map row_summary (results t))
    /\ length (printed t) = length (printed b).
Proof.
  intros Hflat Hnlp
    (nlp0 & model & job_desc & job_vec & Hn & Hm & Hj & Hv & ->)%match_resumes_ok.
  unfold matching, get_sentence_transformer.
  rewrite Hn. cbn [mbind result_bind]. rewrite Hm. cbn [mbind result_bind].
  rewrite Hj. cbn [mbind result_bind].
  eexists. split; [reflexivity|].
  destruct (Tab1Facts.loop_spec (match_file w nlp model job_desc)
              (listdir w App.temp_resume_dir) {| results := []; printed := [] |})
    as [-> ->].
  destruct (BatchFacts.walk_loop_spec w (match_one w model job_vec) App.temp_resume_dir)
    as [-> ->].
  rewrite (Tab1Facts.flat_resume_files _ _ Hflat).
  destruct (Tab1Facts.rows_like_entries w nlp model job_desc job_vec Hv Hnlp
              (listdir w App.temp_resume_dir)) as [Hrows Hmsgs].
  cbn [results printed app]. split; [|split].
  - apply Tab1Facts.rows_in_listing_order. apply Tab1Facts.match_file_filename.
  - rewrite (Tab1Facts.map_sorted_desc match_summary score summary_score) by done.
    by rewrite Hrows.
  - done.
Qed.

Lemma front_end_rows_are_the_matches_unsorted_witness :
  exists b t,
    match_resumes Office.world (Str "temp_job_jd.docx") App.temp_resume_dir = Ok b
    /\ matching Office.world Demo.parse "temp_job_jd.docx" = Ok t
    /\ map row_filename (table 1 t) = ["joe_smith.pdf"]
    /\ map mr_filename (firstn 1 (results b)) = ["ana.docx"]
    /\ map match_summary (results b)
       = sorted_desc summary_score (map row_summary (results t)).
Proof.
  eexists _, _. split; [vm_compute; reflexivity|]. split; [vm_compute; reflexivity|].
  split; [reflexivity|]. split; [reflexivity|].
  destruct (front_end_rows_are_the_matches_unsorted Office.world Demo.parse
              "temp_job_jd.docx" _ eq_refl
              (fun text => ex_intro _ _ eq_refl) eq_refl)
    as (t & Ht & _ & Hsame & _).
  injection Ht as <-. exact Hsame.
Defined.
